(** * Pixel art generator: a shallow embedding of [pixel_art_generator.py]

    The development follows the Python module top to bottom: the palette
    table, the [PixelArtConfig] dataclass with its [__post_init__]
    validation, palette selection, the symmetry helpers, background
    selection, PNG chunk framing, [_write_png] and [generate_pixel_art].

    Python integers are [Z]; [//] and [%] are [Z.div] and [Z.modulo] (both
    floor, remainder with the sign of the divisor) with the division by zero
    written out as an exception.  [bytes] values are lists of [Z] in
    [0, 256).  Floats only occur in one comparison, [rng.random() <
    background_ratio]; every finite float is a rational and the comparison
    of finite floats is exact, so they are modelled by [Q].  Exceptions are
    an error monad, the random generator is threaded as explicit state. *)

From Stdlib Require Import ZArith QArith Lia String.
From stdpp Require Import base option list.

Open Scope Z_scope.

(** ** Exceptions and results

    [ValueError] is what the module raises for an invalid configuration and
    for a refused palette index; the four others come from the operations
    it calls. *)

Inductive exn : Type :=
  | ValueError
  | ZeroDivisionError
  | IndexError
  | StructError
  | OverflowError.

Inductive result (A : Type) : Type :=
  | Ok (a : A)
  | Raise (e : exn).
Arguments Ok {A} a.
Arguments Raise {A} e.

#[global] Instance result_ret : MRet result := fun A a => Ok a.
#[global] Instance result_bind : MBind result := fun A B f m =>
  match m with
  | Ok a => f a
  | Raise e => Raise e
  end.

(** ** Python sequence helpers *)

Abbreviation bytes := (list Z).

Definition is_byte (b : Z) : Prop := 0 <= b < 256.

(** [seq[i]] for a tuple or list: negative indices count from the end,
    anything outside [-len, len) raises [IndexError]. *)
Definition py_getitem {A} (l : list A) (i : Z) : result A :=
  let n := Z.of_nat (length l) in
  let j := if i <? 0 then i + n else i in
  if (0 <=? j) && (j <? n) then
    match l !! Z.to_nat j with
    | Some x => Ok x
    | None => Raise IndexError
    end
  else Raise IndexError.

(** [range(n)] has [n] elements for positive [n] and none otherwise. *)
Definition range_len (n : Z) : nat := Z.to_nat n.

(** ** The palette table *)

Definition colour : Type := Z * Z * Z.

Definition PALETTES : list (list colour) :=
  [ [(26, 28, 44); (93, 39, 93); (177, 62, 83); (239, 125, 87); (255, 205, 117)];
    [(7, 48, 66); (231, 111, 81); (244, 162, 97); (233, 196, 106); (42, 157, 143)];
    [(40, 42, 54); (68, 71, 90); (189, 147, 249); (255, 85, 85); (80, 250, 123)];
    [(15, 32, 39); (52, 78, 65); (158, 174, 162); (242, 233, 228); (215, 38, 56)];
    [(30, 30, 30); (70, 70, 70); (120, 120, 120); (200, 200, 200); (250, 250, 250)] ].

(** ** The configuration dataclass *)

Record PixelArtConfig : Type := {
  size : Z;
  grid_cells : Z;
  symmetry : string;
  palette_index : option Z;
  background_ratio : Q
}.

Definition default_config : PixelArtConfig :=
  {| size := 128; grid_cells := 16; symmetry := "vertical";
     palette_index := None; background_ratio := 45 # 100 |}.

(** [a % b] *)
Definition py_mod (a b : Z) : result Z :=
  if b =? 0 then Raise ZeroDivisionError else Ok (a mod b).

(** [a // b] *)
Definition py_floordiv (a b : Z) : result Z :=
  if b =? 0 then Raise ZeroDivisionError else Ok (a / b).

(** [s in {...}] for a set of string literals. *)
Definition str_in (s : string) (l : list string) : bool :=
  existsb (String.eqb s) l.
Arguments str_in : simpl never.

Definition raise_if (c : bool) (e : exn) : result unit :=
  if c then Raise e else Ok tt.

(** [PixelArtConfig.__post_init__] *)
Definition __post_init__ (self : PixelArtConfig) : result unit :=
  m ← py_mod (size self) (grid_cells self);
  _ ← raise_if (negb (m =? 0)) ValueError;
  _ ← raise_if (negb (str_in (symmetry self)
                        ["none"; "vertical"; "horizontal"; "quadrant"]%string))
               ValueError;
  _ ← raise_if (negb (Qle_bool 0 (background_ratio self)
                      && Qle_bool (background_ratio self) 1))
               ValueError;
  raise_if (str_in (symmetry self) ["vertical"; "horizontal"; "quadrant"]%string
            && negb (grid_cells self mod 2 =? 0))
           ValueError.

(** Calling the dataclass constructor: the fields are stored, then
    [__post_init__] runs; the object only exists when it returns. *)
Definition make_config (sz gc : Z) (sym : string) (pi : option Z) (br : Q)
  : result PixelArtConfig :=
  let self := {| size := sz; grid_cells := gc; symmetry := sym;
                 palette_index := pi; background_ratio := br |} in
  _ ← __post_init__ self;
  Ok self.

(** ** The random source

    [random.Random] is an external collaborator.  It is taken as an
    interface: a generator state, seeding from an integer, [random()] that
    returns a float in [0, 1), and the [_randbelow(n)] primitive on which
    [choice] is built. *)

Class RandomSource : Type := {
  rng_state : Type;
  rng_seed : Z -> rng_state;
  rng_random : rng_state -> Q * rng_state;
  rng_randbelow : nat -> rng_state -> nat * rng_state;
  rng_random_unit : forall s, (0 <= fst (rng_random s))%Q /\ (fst (rng_random s) < 1)%Q;
  rng_randbelow_lt : forall n s, (0 < n)%nat -> (fst (rng_randbelow n s) < n)%nat
}.

(** One entry per call made on the generator object. *)
Inductive draw : Type :=
  | DrawRandom (u : Q)
  | DrawChoice (n i : nat).

Definition Qlt_bool (x y : Q) : bool :=
  Qnum x * QDen y <? Qnum y * QDen x.

Section Generator.
Context {RS : RandomSource}.

(** A [random.Random] object: the generator state, and a ghost log of the
    calls made on it so far (the log is never read by the program). *)
Record Random : Type := {
  rng_gen : rng_state;
  rng_log : list draw
}.

(** Computations that use the generator object and may raise. *)
Definition Gen (A : Type) : Type := Random -> result (A * Random).

#[global] Instance gen_ret : MRet Gen := fun A a r => Ok (a, r).
#[global] Instance gen_bind : MBind Gen := fun A B f m r =>
  match m r with
  | Ok (a, r') => f a r'
  | Raise e => Raise e
  end.

Definition gen_lift {A} (x : result A) : Gen A := fun r =>
  match x with
  | Ok a => Ok (a, r)
  | Raise e => Raise e
  end.

(** [random.Random(seed)]: with [seed=None] the state comes from the
    operating system's entropy, here the [entropy] argument. *)
Definition Random_init (entropy : rng_state) (seed : option Z) : Random :=
  {| rng_gen := match seed with Some s => rng_seed s | None => entropy end;
     rng_log := [] |}.

(** [rng.random()] *)
Definition random : Gen Q := fun r =>
  let '(u, g) := rng_random (rng_gen r) in
  Ok (u, {| rng_gen := g; rng_log := rng_log r ++ [DrawRandom u] |}).

(** [rng.choice(seq)]: [IndexError] on an empty sequence, otherwise
    [seq[self._randbelow(len(seq))]]. *)
Definition choice {A} (seq : list A) : Gen A := fun r =>
  match seq with
  | [] => Raise IndexError
  | _ =>
    let '(i, g) := rng_randbelow (length seq) (rng_gen r) in
    match seq !! i with
    | Some x => Ok (x, {| rng_gen := g;
                          rng_log := rng_log r ++ [DrawChoice (length seq) i] |})
    | None => Raise IndexError
    end
  end.

(** ** Palette selection *)

Definition _choose_palette (palette_index : option Z) : Gen (list colour) :=
  match palette_index with
  | None => choice PALETTES
  | Some i =>
    gen_lift match py_getitem PALETTES i with
             | Ok p => Ok p
             | Raise IndexError => Raise ValueError
             | Raise e => Raise e
             end
  end.

End Generator.

(** ** Symmetry helpers *)

Definition _apply_symmetry_row (row : list colour) (symmetry : string) : list colour :=
  if String.eqb symmetry "none" then row
  else
    let half := (length row / 2)%nat in
    if String.eqb symmetry "vertical" then
      let mirrored := take half row in
      mirrored ++ reverse mirrored
    else if String.eqb symmetry "horizontal" then row
    else if String.eqb symmetry "quadrant" then
      let mirrored := take half row in
      mirrored ++ reverse mirrored
    else row.

(** One iteration of the loop of [_mirror_grid_horizontally]:
    [grid[-(y + 1)] = list(grid[y])].  Both indices are in range for
    [y < len(grid) // 2]; outside it Python raises [IndexError]. *)
Definition mirror_step (grid : list (list colour)) (y : nat)
  : result (list (list colour)) :=
  src ← py_getitem grid (Z.of_nat y);
  let i := - (Z.of_nat y + 1) in
  let n := Z.of_nat (length grid) in
  if (0 <=? i + n) then Ok (<[Z.to_nat (i + n) := src]> grid)
  else Raise IndexError.

Fixpoint mirror_loop (ys : list nat) (grid : list (list colour))
  : result (list (list colour)) :=
  match ys with
  | [] => Ok grid
  | y :: ys' => grid' ← mirror_step grid y; mirror_loop ys' grid'
  end.

Definition _mirror_grid_horizontally (grid : list (list colour))
  : result (list (list colour)) :=
  let half := (length grid / 2)%nat in
  mirror_loop (seq 0 half) grid.

(** ** Background selection *)

(** [sum(c)] for a 3-tuple. *)
Definition colour_sum (c : colour) : Z :=
  let '(r, g, b) := c in 0 + r + g + b.

(** The scan of [min(iterable, key=...)]: the held element is replaced only
    by one with a strictly smaller key. *)
Fixpoint min_scan {A} (key : A -> Z) (best : A) (rest : list A) : A :=
  match rest with
  | [] => best
  | x :: rest' => if key x <? key best then min_scan key x rest'
                  else min_scan key best rest'
  end.

Definition py_min {A} (key : A -> Z) (l : list A) : result A :=
  match l with
  | [] => Raise ValueError
  | x :: rest => Ok (min_scan key x rest)
  end.

Definition _determine_background (palette : list colour) : result colour :=
  py_min colour_sum palette.

(** ** [struct.pack] and the zlib interface *)

(** [struct.pack(">I", v)]: four bytes, most significant first; a value
    outside [0, 2^32) raises [struct.error]. *)
Definition pack_u32_be (v : Z) : result bytes :=
  if (0 <=? v) && (v <? 2 ^ 32) then
    Ok [v / 2 ^ 24 mod 256; v / 2 ^ 16 mod 256; v / 2 ^ 8 mod 256; v mod 256]
  else Raise StructError.

(** One ["B"] field. *)
Definition pack_u8 (v : Z) : result bytes :=
  if (0 <=? v) && (v <? 256) then Ok [v] else Raise StructError.

(** [struct.pack(">IIBBBBB", a, b, c, d, e, f, g)] *)
Definition pack_IIBBBBB (a b c d e f g : Z) : result bytes :=
  a' ← pack_u32_be a; b' ← pack_u32_be b;
  c' ← pack_u8 c; d' ← pack_u8 d; e' ← pack_u8 e; f' ← pack_u8 f; g' ← pack_u8 g;
  Ok (a' ++ b' ++ c' ++ d' ++ e' ++ f' ++ g').

(** Reading a big-endian unsigned integer back. *)
Definition unpack_be (bs : bytes) : Z :=
  fold_left (fun acc b => acc * 256 + b) bs 0.

(** [zlib] is an external collaborator: [crc32] returns an unsigned 32-bit
    value, and [decompress] inverts [compress] on byte strings. *)
Class Zlib : Type := {
  crc32 : bytes -> Z;
  compress : bytes -> bytes;
  decompress : bytes -> option bytes;
  crc32_range : forall d, 0 <= crc32 d < 2 ^ 32;
  decompress_compress : forall d, Forall is_byte d -> decompress (compress d) = Some d
}.

(** ** Byte literals of the encoder *)

(** [b"\x89PNG\r\n\x1a\n"] *)
Definition png_signature : bytes := [137; 80; 78; 71; 13; 10; 26; 10].
Definition IHDR : bytes := [73; 72; 68; 82].
Definition IDAT : bytes := [73; 68; 65; 84].
Definition IEND : bytes := [73; 69; 78; 68].

(** ** The destination file

    The state is the content of the file at [path], [None] while no such
    file exists.  An exception leaves the state as it is, as the [with]
    block only closes the handle. *)
Definition FileIO (A : Type) : Type := option bytes -> result A * option bytes.

#[global] Instance fileio_ret : MRet FileIO := fun A a fh => (Ok a, fh).
#[global] Instance fileio_bind : MBind FileIO := fun A B f m fh =>
  match m fh with
  | (Ok a, fh') => f a fh'
  | (Raise e, fh') => (Raise e, fh')
  end.

Definition io_lift {A} (x : result A) : FileIO A := fun fh => (x, fh).

(** [path.open("wb")]: the file is created or truncated. *)
Definition open_wb : FileIO unit := fun _ => (Ok tt, Some []).

(** [fh.write(data)] *)
Definition fh_write (data : bytes) : FileIO unit := fun fh =>
  (Ok tt, (fun old => old ++ data) <$> fh).

Section Encoder.
Context {ZL : Zlib}.

Definition _png_chunk (chunk_type data : bytes) : result bytes :=
  len ← pack_u32_be (Z.of_nat (length data));
  crc ← pack_u32_be (Z.land (crc32 (chunk_type ++ data)) 4294967295);
  Ok (len ++ chunk_type ++ data ++ crc).

Definition _write_png (width height : Z) (rows : list bytes) : FileIO unit :=
  let header := png_signature in
  ihdr ← io_lift (pack_IIBBBBB width height 8 2 0 0 0);
  let raw := concat (map (fun row => 0 :: row) rows) in
  let compressed := compress raw in
  _ ← open_wb;
  _ ← fh_write header;
  c1 ← io_lift (_png_chunk IHDR ihdr);
  _ ← fh_write c1;
  c2 ← io_lift (_png_chunk IDAT compressed);
  _ ← fh_write c2;
  c3 ← io_lift (_png_chunk IEND []);
  fh_write c3.

End Encoder.

(** ** Grid synthesis and pixel expansion *)

Definition colour_items (c : colour) : list Z :=
  let '(r, g, b) := c in [r; g; b].

(** [bytearray.extend(items)]: every item must be in [range(256)]. *)
Fixpoint bytearray_extend (buf : bytes) (items : list Z) : result bytes :=
  match items with
  | [] => Ok buf
  | x :: items' =>
    if (0 <=? x) && (x <? 256) then bytearray_extend (buf ++ [x]) items'
    else Raise ValueError
  end.

(** A [for x in xs] loop that threads a value and may raise. *)
Fixpoint for_each {A St} (xs : list A) (body : St -> A -> result St) (st : St)
  : result St :=
  match xs with
  | [] => Ok st
  | x :: xs' => st' ← body st x; for_each xs' body st'
  end.

Section Generate.
Context {RS : RandomSource} {ZL : Zlib}.

(** A [for _ in range(n)] loop in the generator monad. *)
Fixpoint for_range {St} (n : nat) (body : St -> Gen St) (st : St) : Gen St :=
  match n with
  | O => mret st
  | S n' => st' ← body st; for_range n' body st'
  end.

Definition vertical_or_quadrant (cfg : PixelArtConfig) : bool :=
  str_in (symmetry cfg) ["vertical"; "quadrant"]%string.

(** Body of the inner loop (source lines 139-142). *)
Definition cell_body (cfg : PixelArtConfig) (background_colour : colour)
    (palette : list colour) (row : list colour) : Gen (list colour) :=
  u ← random;
  if Qlt_bool u (background_ratio cfg) then mret (row ++ [background_colour])
  else c ← choice palette; mret (row ++ [c]).

(** Body of the outer loop (source lines 137-147). *)
Definition row_body (cfg : PixelArtConfig) (background_colour : colour)
    (palette : list colour) (grid : list (list colour)) : Gen (list (list colour)) :=
  row ← for_range
          (range_len (grid_cells cfg / (if vertical_or_quadrant cfg then 2 else 1)))
          (cell_body cfg background_colour palette) [];
  let row := if vertical_or_quadrant cfg then _apply_symmetry_row row "vertical"
             else _apply_symmetry_row row (symmetry cfg) in
  mret (grid ++ [row]).

(** The coarse grid as it stands after source line 152. *)
Definition coarse_grid (cfg : PixelArtConfig) (background_colour : colour)
    (palette : list colour) : Gen (list (list colour)) :=
  grid ← for_range (range_len (grid_cells cfg))
           (row_body cfg background_colour palette) [];
  if str_in (symmetry cfg) ["horizontal"; "quadrant"]%string then
    gen_lift (_mirror_grid_horizontally grid)
  else mret grid.

(** [[x] * n]: the count is first converted to an index-sized integer,
    which raises [OverflowError] outside [-2^63, 2^63) (64-bit CPython); a
    count of zero or less gives the empty list. *)
Definition list_repeat {A} (x : A) (n : Z) : result (list A) :=
  if (- 2 ^ 63 <=? n) && (n <? 2 ^ 63) then Ok (replicate (range_len n) x)
  else Raise OverflowError.

(** One iteration of [for row in grid] (source lines 155-165). *)
Definition pixel_row_body (cell_size : Z) (pixel_rows : list bytes)
    (row : list colour) : result (list bytes) :=
  expanded_row ← for_each row
                   (fun acc colour =>
                      cells ← list_repeat colour cell_size; Ok (acc ++ cells)) [];
  row_bytes ← for_each expanded_row
                (fun buf colour => bytearray_extend buf (colour_items colour)) [];
  Ok (fold_left (fun acc _ => acc ++ [row_bytes]) (seq 0 (range_len cell_size)) pixel_rows).

Definition pixel_rows_of (cell_size : Z) (grid : list (list colour))
  : result (list bytes) :=
  for_each grid (pixel_row_body cell_size) [].

(** Everything [generate_pixel_art] does before it calls [_write_png]. *)
Definition render (cfg : PixelArtConfig) : Gen (list bytes) :=
  palette ← _choose_palette (palette_index cfg);
  background_colour ← gen_lift (_determine_background palette);
  cell_size ← gen_lift (py_floordiv (size cfg) (grid_cells cfg));
  grid ← coarse_grid cfg background_colour palette;
  gen_lift (pixel_rows_of cell_size grid).

(** [generate_pixel_art(output_path, config, seed=seed)].  The call runs in
    an environment made of the entropy that an unseeded generator would
    read and of the content [existing] of the file at [output_path]; the
    result pairs the outcome of the call with the content of that file
    afterwards. *)
Definition generate_pixel_art (entropy : rng_state) (existing : option bytes)
    (config : option PixelArtConfig) (seed : option Z)
  : result unit * option bytes :=
  let cfg := default default_config config in
  let rng := Random_init entropy seed in
  match render cfg rng with
  | Raise e => (Raise e, existing)
  | Ok (pixel_rows, _) => _write_png (size cfg) (size cfg) pixel_rows existing
  end.

End Generate.

(** ** The command line entry point

    [_parse_args] is [argparse] at work; [main] is modelled from the
    namespace it returns.  The fields keep the names of the destinations
    ([args.output], [args.seed], ...), inside a module of their own. *)
Module Cli.

Record Namespace : Type := {
  output : string;
  seed : option Z;
  palette : option Z;
  symmetry : string;
  grid_cells : Z;
  background_ratio : Q
}.

Section Main.
Context {RS : RandomSource} {ZL : Zlib}.

(** [main]: the configuration is built with [size=128], which runs
    [__post_init__]; then [generate_pixel_art] is called and its return
    value, the output path, is returned. *)
Definition main (entropy : rng_state) (existing : option bytes) (args : Namespace)
  : result string * option bytes :=
  match make_config 128 (grid_cells args) (symmetry args) (palette args)
                    (background_ratio args) with
  | Raise e => (Raise e, existing)
  | Ok config =>
    match generate_pixel_art entropy existing (Some config) (seed args) with
    | (Ok _, file) => (Ok (output args), file)
    | (Raise e, file) => (Raise e, file)
    end
  end.

End Main.
End Cli.

(** ** Vocabulary of the statements

    Closed forms and observers used to state the properties below; the
    program itself never calls them. *)

(** What [_mirror_grid_horizontally] leaves in the list: the rows above the
    centre followed by the mirror image of the upper half. *)
Definition mirror_rows {A} (grid : list A) : list A :=
  take (length grid - length grid / 2)%nat grid
    ++ reverse (take (length grid / 2)%nat grid).

(** The list after the first [k] iterations of that loop. *)
Definition mirrored_upto {A} (grid : list A) (k : nat) : list A :=
  take (length grid - k) grid ++ reverse (take k grid).

(** The draws made for one generated cell: the uniform real, and the
    palette position when a palette colour was drawn. *)
Record cell_trace : Type := {
  first_draw : Q;
  palette_draw : option nat
}.

Definition cell_draws (n : nat) (c : cell_trace) : list draw :=
  DrawRandom (first_draw c) ::
  match palette_draw c with
  | None => []
  | Some i => [DrawChoice n i]
  end.

Definition cell_colour (background_colour : colour) (palette : list colour)
    (c : cell_trace) : colour :=
  match palette_draw c with
  | None => background_colour
  | Some i => default background_colour (palette !! i)
  end.

(** The background branch is taken exactly when the first draw is below the
    ratio; a palette draw is a position of the palette. *)
Definition cell_wf (ratio : Q) (palette : list colour) (c : cell_trace) : Prop :=
  (0 <= first_draw c)%Q /\ (first_draw c < 1)%Q /\
  (palette_draw c = None <-> (first_draw c < ratio)%Q) /\
  (forall i, palette_draw c = Some i -> (i < length palette)%nat).

(** Number of cells the inner loop generates per row. *)
Definition generated_columns (cfg : PixelArtConfig) : nat :=
  range_len (grid_cells cfg / (if str_in (symmetry cfg) ["vertical"; "quadrant"]%string
                               then 2 else 1)).

(** The bytes of one pixel row: every cell of the coarse row repeated
    [cell_size] times, three bytes per pixel. *)
Definition row_pixels (cell_size : Z) (row : list colour) : bytes :=
  concat (map (fun c => concat (replicate (range_len cell_size) (colour_items c))) row).

(** The pixel matrix: every coarse row repeated [cell_size] times. *)
Definition pixel_matrix (cell_size : Z) (grid : list (list colour)) : list bytes :=
  concat (map (fun row => replicate (range_len cell_size) (row_pixels cell_size row)) grid).



(** Removing the per-row filter byte from the decompressed stream: rows of
    [1 + width] bytes, of which the first must be 0. *)
Fixpoint unfilter (rows width : nat) (raw : bytes) : option (list bytes) :=
  match rows with
  | O => match raw with [] => Some [] | _ => None end
  | S rows' =>
    match raw with
    | 0 :: rest =>
      if decide (width <= length rest)%nat then
        (fun tl => take width rest :: tl) <$> unfilter rows' width (drop width rest)
      else None
    | _ => None
    end
  end.

Definition is_colour (c : colour) : Prop := Forall is_byte (colour_items c).

(** The four bytes of an unsigned 32-bit value, most significant first. *)
Definition be32 (v : Z) : bytes :=
  [v / 2 ^ 24 mod 256; v / 2 ^ 16 mod 256; v / 2 ^ 8 mod 256; v mod 256].

(** The stream that [_write_png] compresses: every row behind a 0 byte. *)
Definition filtered (rows : list bytes) : bytes :=
  concat (map (fun row => 0 :: row) rows).

(** Reading one chunk back from a stream: the length field, the tag, the
    payload, and the checksum, which must be the CRC-32 of tag and payload.
    The result is the tag, the payload and the rest of the stream. *)
Definition read_chunk {ZL : Zlib} (s : bytes) : option (bytes * bytes * bytes) :=
  let n := Z.to_nat (unpack_be (take 4 s)) in
  let tag := take 4 (drop 4 s) in
  let data := take n (drop 8 s) in
  let crc := take 4 (drop (8 + n) s) in
  if bool_decide (12 + n <= length s)%nat && (unpack_be crc =? crc32 (tag ++ data))
  then Some (tag, data, drop (12 + n) s)
  else None.

Fixpoint read_chunks {ZL : Zlib} (k : nat) (s : bytes)
  : option (list (bytes * bytes) * bytes) :=
  match k with
  | O => Some ([], s)
  | S k' =>
    match read_chunk s with
    | Some (tag, data, rest) =>
      match read_chunks k' rest with
      | Some (chunks, rest') => Some ((tag, data) :: chunks, rest')
      | None => None
      end
    | None => None
    end
  end.

(** How the outer loop completes a generated row (source lines 143-146). *)
Definition completed_row (cfg : PixelArtConfig) (row : list colour) : list colour :=
  if str_in (symmetry cfg) ["vertical"; "quadrant"]%string
  then _apply_symmetry_row row "vertical"
  else _apply_symmetry_row row (symmetry cfg).

(** Number of cells in a row of the coarse grid as the code builds it. *)
Definition row_width (cfg : PixelArtConfig) : nat :=
  if str_in (symmetry cfg) ["vertical"; "quadrant"]%string
  then (2 * (generated_columns cfg / 2))%nat
  else generated_columns cfg.

(** The explicit palette indices that the tuple lookup accepts. *)
Definition palette_index_ok (cfg : PixelArtConfig) : Prop :=
  match palette_index cfg with
  | None => True
  | Some i => -5 <= i < 5
  end.

(** ** Sample inputs *)

(** The scenario of the specification: the default configuration with
    palette 0. *)
Definition scenario_config : PixelArtConfig :=
  {| size := 128; grid_cells := 16; symmetry := "vertical";
     palette_index := Some 0; background_ratio := 45 # 100 |}.

Definition quadrant_full_config : PixelArtConfig :=
  {| size := 8; grid_cells := 4; symmetry := "quadrant";
     palette_index := Some 2; background_ratio := 1 |}.

Definition horizontal_config : PixelArtConfig :=
  {| size := 8; grid_cells := 4; symmetry := "horizontal";
     palette_index := Some 1; background_ratio := 45 # 100 |}.

Definition no_background_config : PixelArtConfig :=
  {| size := 6; grid_cells := 3; symmetry := "none";
     palette_index := None; background_ratio := 0 |}.

Definition negative_size_config : PixelArtConfig :=
  {| size := -16; grid_cells := 16; symmetry := "none";
     palette_index := Some 0; background_ratio := 45 # 100 |}.

Definition negative_cells_config : PixelArtConfig :=
  {| size := 128; grid_cells := -16; symmetry := "vertical";
     palette_index := Some 0; background_ratio := 45 # 100 |}.

Definition default_args : Cli.Namespace :=
  {| Cli.output := "art.png"; Cli.seed := Some 42; Cli.palette := None;
     Cli.symmetry := "vertical"; Cli.grid_cells := 16;
     Cli.background_ratio := 45 # 100 |}.


Definition palette0 : list colour :=
  [(26, 28, 44); (93, 39, 93); (177, 62, 83); (239, 125, 87); (255, 205, 117)].

(** ** Instances of the two interfaces

    They make every definition above executable on concrete inputs. *)

(** A linear congruential generator with 31 bits of state. *)
Module Lcg.

Definition modulus : Z := 2 ^ 31.

Definition next (s : Z) : Z := (1103515245 * s + 12345) mod modulus.

Definition from_seed (s : Z) : Z := s mod modulus.

Definition next_float (s : Z) : Q * Z :=
  let s' := next s in (s' # 2147483648, s').

Definition next_below (n : nat) (s : Z) : nat * Z :=
  let s' := next s in (Z.to_nat ((s' / 65536) mod Z.of_nat n), s').

Lemma next_range s : 0 <= next s < modulus.
Proof. unfold next. apply Z.mod_pos_bound. reflexivity. Qed.

Lemma next_float_unit s :
  (0 <= fst (next_float s))%Q /\ (fst (next_float s) < 1)%Q.
Proof.
  pose proof (next_range s) as H. unfold modulus in H.
  unfold next_float, Qle, Qlt. simpl. lia.
Qed.

Lemma next_below_lt n s : (0 < n)%nat -> (fst (next_below n s) < n)%nat.
Proof.
  intros Hn. unfold next_below. simpl.
  pose proof (Z.mod_pos_bound (next s / 65536) (Z.of_nat n)). lia.
Qed.

End Lcg.

#[global] Instance lcg_source : RandomSource := {|
  rng_state := Z;
  rng_seed := Lcg.from_seed;
  rng_random := Lcg.next_float;
  rng_randbelow := Lcg.next_below;
  rng_random_unit := Lcg.next_float_unit;
  rng_randbelow_lt := Lcg.next_below_lt
|}.

(** The bitwise CRC-32 of the PNG specification (reflected polynomial
    [0xEDB88320]), and a codec that stores its input behind a two-byte
    header. *)
Module Store.

Definition crc_shift (c : Z) : Z :=
  if Z.testbit c 0 then Z.lxor (Z.shiftr c 1) 3988292384 else Z.shiftr c 1.

Definition crc_byte (c b : Z) : Z :=
  Nat.iter 8 crc_shift (Z.lxor c (b mod 256)).

Definition crc32_ieee (d : bytes) : Z :=
  Z.lxor (fold_left crc_byte d 4294967295) 4294967295.

Definition store (d : bytes) : bytes := 120 :: 1 :: d.

Definition unstore (d : bytes) : option bytes :=
  match d with
  | 120 :: 1 :: d' => Some d'
  | _ => None
  end.

Definition u32 (c : Z) : Prop := 0 <= c < 2 ^ 32.

Lemma lxor_u32 a b : u32 a -> u32 b -> u32 (Z.lxor a b).
Proof.
  unfold u32. intros Ha Hb.
  assert (0 <= Z.lxor a b) as Hnn by (apply Z.lxor_nonneg; lia).
  split; [exact Hnn|].
  destruct (Z.eq_dec (Z.lxor a b) 0) as [->|Hne]; [reflexivity|].
  apply Z.log2_lt_pow2; [lia|].
  pose proof (Z.log2_lxor a b ltac:(lia) ltac:(lia)) as Hl.
  assert (Z.log2 a < 32) as Hla.
  { destruct (Z.eq_dec a 0) as [->|?]; [reflexivity|apply Z.log2_lt_pow2; lia]. }
  assert (Z.log2 b < 32) as Hlb.
  { destruct (Z.eq_dec b 0) as [->|?]; [reflexivity|apply Z.log2_lt_pow2; lia]. }
  lia.
Qed.

Lemma shiftr_u32 c : u32 c -> u32 (Z.shiftr c 1).
Proof.
  unfold u32. intros Hc. rewrite Z.shiftr_div_pow2 by lia.
  change (2 ^ 1) with 2. split.
  - apply Z.div_pos; lia.
  - apply Z.div_lt_upper_bound; lia.
Qed.

Lemma crc_shift_u32 c : u32 c -> u32 (crc_shift c).
Proof.
  intros Hc. unfold crc_shift. destruct (Z.testbit c 0).
  - apply lxor_u32; [apply shiftr_u32; exact Hc|unfold u32; lia].
  - apply shiftr_u32; exact Hc.
Qed.

Lemma crc_byte_u32 c b : u32 c -> u32 (crc_byte c b).
Proof.
  intros Hc. unfold crc_byte.
  assert (u32 (Z.lxor c (b mod 256))) as H0.
  { apply lxor_u32; [exact Hc|].
    pose proof (Z.mod_pos_bound b 256 ltac:(lia)). unfold u32. lia. }
  simpl. do 8 apply crc_shift_u32. exact H0.
Qed.

Lemma fold_crc_u32 d c : u32 c -> u32 (fold_left crc_byte d c).
Proof.
  revert c. induction d as [|b d IH]; intros c Hc; simpl; [exact Hc|].
  apply IH, crc_byte_u32, Hc.
Qed.

Lemma crc32_ieee_u32 d : 0 <= crc32_ieee d < 2 ^ 32.
Proof.
  unfold crc32_ieee. apply lxor_u32; [|unfold u32; lia].
  apply fold_crc_u32. unfold u32. lia.
Qed.

Lemma unstore_store d : Forall is_byte d -> unstore (store d) = Some d.
Proof. reflexivity. Qed.

(** The checksum of the end chunk is the well-known [AE 42 60 82]. *)
Example crc32_ieee_IEND : be32 (crc32_ieee IEND) = [174; 66; 96; 130].
Proof. reflexivity. Qed.

End Store.

#[global] Instance store_zlib : Zlib := {|
  crc32 := Store.crc32_ieee;
  compress := Store.store;
  decompress := Store.unstore;
  crc32_range := Store.crc32_ieee_u32;
  decompress_compress := Store.unstore_store
|}.

(** A generator object of the linear congruential source, seeded. *)
Definition lcg_rng (seed : Z) : @Random lcg_source :=
  @Random_init lcg_source 0 (Some seed).

(** * Properties *)

(** ** Results *)

Lemma result_bind_Ok {A B} (m : result A) (f : A -> result B) (b : B) :
  m ≫= f = Ok b <-> exists a, m = Ok a /\ f a = Ok b.
Proof.
  destruct m as [a|e]; simpl.
  - split; [eauto|]. intros (a' & [= <-] & H). exact H.
  - split; [discriminate|]. intros (a' & [=] & _).
Qed.

Lemma raise_if_Ok c e : raise_if c e = Ok tt <-> c = false.
Proof. destruct c; simpl; split; congruence. Qed.

Lemma Qlt_bool_iff x y : Qlt_bool x y = true <-> (x < y)%Q.
Proof. unfold Qlt_bool, Qlt. apply Z.ltb_lt. Qed.

Lemma Qlt_bool_false_iff x y : Qlt_bool x y = false <-> ~ (x < y)%Q.
Proof. rewrite <- Qlt_bool_iff. destruct (Qlt_bool x y); split; congruence. Qed.

(** ** Configuration validation *)

Lemma py_mod_nonzero a b : b <> 0 -> py_mod a b = Ok (a mod b).
Proof. intros Hb. unfold py_mod. destruct (Z.eqb_spec b 0); [contradiction|reflexivity]. Qed.

(** What a configuration that passed [__post_init__] satisfies. *)
Lemma post_init_Ok cfg :
  __post_init__ cfg = Ok tt ->
  grid_cells cfg <> 0 /\ size cfg mod grid_cells cfg = 0 /\
  str_in (symmetry cfg) ["none"; "vertical"; "horizontal"; "quadrant"]%string = true /\
  (0 <= background_ratio cfg)%Q /\ (background_ratio cfg <= 1)%Q /\
  (str_in (symmetry cfg) ["vertical"; "horizontal"; "quadrant"]%string = true ->
   grid_cells cfg mod 2 = 0).
Proof.
  intros H. unfold __post_init__ in H.
  apply result_bind_Ok in H as (m & Hm & H).
  apply result_bind_Ok in H as ([] & H1 & H).
  apply result_bind_Ok in H as ([] & H2 & H).
  apply result_bind_Ok in H as ([] & H3 & H).
  apply raise_if_Ok in H1, H2, H3, H.
  unfold py_mod in Hm.
  destruct (Z.eqb_spec (grid_cells cfg) 0) as [|Hgc]; [discriminate|].
  injection Hm as <-.
  apply negb_false_iff in H1, H2, H3. apply Z.eqb_eq in H1.
  apply andb_true_iff in H3 as [Ha Hb]. apply Qle_bool_iff in Ha, Hb.
  repeat split; try assumption.
  intros Hs. rewrite Hs in H. simpl in H.
  apply negb_false_iff, Z.eqb_eq in H. exact H.
Qed.

(** Conversely these conditions are all that is checked: nothing constrains
    the sign of [grid_cells] or of [size]. *)
Lemma post_init_accepts cfg :
  grid_cells cfg <> 0 -> size cfg mod grid_cells cfg = 0 ->
  str_in (symmetry cfg) ["none"; "vertical"; "horizontal"; "quadrant"]%string = true ->
  (0 <= background_ratio cfg)%Q -> (background_ratio cfg <= 1)%Q ->
  (str_in (symmetry cfg) ["vertical"; "horizontal"; "quadrant"]%string = true ->
   grid_cells cfg mod 2 = 0) ->
  __post_init__ cfg = Ok tt.
Proof.
  intros Hgc Hmod Hsym H0 H1 Hpar. unfold __post_init__.
  rewrite py_mod_nonzero by assumption. rewrite Hmod, Hsym.
  apply Qle_bool_iff in H0, H1. rewrite H0, H1. simpl.
  destruct (str_in (symmetry cfg) ["vertical"; "horizontal"; "quadrant"]%string);
    [|reflexivity].
  rewrite Hpar by reflexivity. reflexivity.
Qed.

(** The rejections that the validation does perform: a non-zero
    [grid_cells] that does not divide [size], and an odd [grid_cells] under
    one of the three mirrored modes. *)
Lemma post_init_rejects cfg :
  grid_cells cfg <> 0 ->
  size cfg mod grid_cells cfg <> 0 \/
  (str_in (symmetry cfg) ["vertical"; "horizontal"; "quadrant"]%string = true /\
   grid_cells cfg mod 2 <> 0) ->
  __post_init__ cfg = Raise ValueError.
Proof.
  intros Hgc Hbad. unfold __post_init__. rewrite py_mod_nonzero by assumption.
  remember (str_in (symmetry cfg) ["none"; "vertical"; "horizontal"; "quadrant"]%string)
    as known.
  remember (Qle_bool 0 (background_ratio cfg) && Qle_bool (background_ratio cfg) 1)
    as in_range.
  simpl.
  destruct (Z.eqb_spec (size cfg mod grid_cells cfg) 0) as [Hm|]; [|reflexivity].
  destruct known; [|reflexivity].
  destruct in_range; [|reflexivity].
  destruct Hbad as [?|[Hs Hodd]]; [contradiction|]. simpl. rewrite Hs.
  destruct (Z.eqb_spec (grid_cells cfg mod 2) 0); [contradiction|reflexivity].
Qed.

(** C5, evaluated on the code: [grid_cells = 0] stops the constructor with
    [ZeroDivisionError] instead of the [ValueError] used for an invalid
    configuration, and a negative [grid_cells] that divides [size] passes
    validation, so the constructor returns a configuration. *)
Theorem post_init_nonpositive_grid_cells :
  make_config 128 0 "vertical" None (45 # 100) = Raise ZeroDivisionError /\
  make_config 128 (-16) "vertical" None (45 # 100) =
    Ok {| size := 128; grid_cells := -16; symmetry := "vertical";
          palette_index := None; background_ratio := 45 # 100 |}.
Proof. split; reflexivity. Qed.

(** ** Background selection *)

Lemma min_scan_split {A} (key : A -> Z) (best : A) (rest : list A) :
  exists pre post,
    best :: rest = pre ++ min_scan key best rest :: post /\
    Forall (fun c => key (min_scan key best rest) < key c) pre /\
    Forall (fun c => key (min_scan key best rest) <= key c) post.
Proof.
  revert best. induction rest as [|x rest IH]; intros best; simpl.
  - exists [], []. repeat split; constructor.
  - destruct (Z.ltb_spec (key x) (key best)) as [Hlt|Hge].
    + destruct (IH x) as (pre & post & Heq & Hpre & Hpost).
      exists (best :: pre), post.
      split; [simpl; f_equal; exact Heq|]. split; [|exact Hpost].
      constructor; [|exact Hpre].
      destruct pre as [|p pre]; simpl in Heq; injection Heq as Hx _.
      * rewrite <- Hx. exact Hlt.
      * subst p. apply Forall_cons in Hpre as [Hp _]. lia.
    + destruct (IH best) as (pre & post & Heq & Hpre & Hpost).
      destruct pre as [|p pre]; simpl in Heq; injection Heq as Hb Hrest.
      * exists [], (x :: post).
        split; [simpl; congruence|]. split; [constructor|].
        constructor; [rewrite <- Hb; exact Hge|exact Hpost].
      * subst p. apply Forall_cons in Hpre as [Hp Hpre].
        exists (best :: x :: pre), post.
        split; [simpl; congruence|]. split; [|exact Hpost].
        constructor; [exact Hp|]. constructor; [lia|exact Hpre].
Qed.

(** C7: the background is an entry of the palette, no entry has a smaller
    channel sum, and every entry before it has a strictly larger one, so it
    is the first minimal entry; for palette 0 it is (26, 28, 44). *)
Theorem determine_background_first_minimum (palette : list colour) :
  palette <> [] ->
  (exists bg pre post,
     _determine_background palette = Ok bg /\
     palette = pre ++ bg :: post /\
     Forall (fun c => colour_sum bg < colour_sum c) pre /\
     Forall (fun c => colour_sum bg <= colour_sum c) post) /\
  (forall r g b, colour_sum (r, g, b) = r + g + b) /\
  (py_getitem PALETTES 0 ≫= _determine_background) = Ok (26, 28, 44).
Proof.
  intros Hne. split; [|split; [intros; unfold colour_sum; lia|reflexivity]].
  destruct palette as [|c0 rest]; [contradiction|].
  destruct (min_scan_split colour_sum c0 rest) as (pre & post & Heq & Hpre & Hpost).
  exists (min_scan colour_sum c0 rest), pre, post. repeat split; assumption.
Qed.

Lemma determine_background_first_minimum_witness :
  [(9, 9, 9); (1, 2, 3); (3, 2, 1); (0, 0, 7)] <> [] /\
  ((exists bg pre post,
      _determine_background [(9, 9, 9); (1, 2, 3); (3, 2, 1); (0, 0, 7)] = Ok bg /\
      [(9, 9, 9); (1, 2, 3); (3, 2, 1); (0, 0, 7)] = pre ++ bg :: post /\
      Forall (fun c => colour_sum bg < colour_sum c) pre /\
      Forall (fun c => colour_sum bg <= colour_sum c) post) /\
   (forall r g b, colour_sum (r, g, b) = r + g + b) /\
   (py_getitem PALETTES 0 ≫= _determine_background) = Ok (26, 28, 44)).
Proof.
  split; [discriminate|].
  apply (determine_background_first_minimum
           [(9, 9, 9); (1, 2, 3); (3, 2, 1); (0, 0, 7)]).
  discriminate.
Defined.

(** ** Palette selection *)

Section PaletteSelection.
Context {RS : RandomSource}.

Lemma choose_palette_in_range (i : Z) (r : Random) :
  0 <= i < 5 ->
  exists p, PALETTES !! Z.to_nat i = Some p /\ _choose_palette (Some i) r = Ok (p, r).
Proof.
  intros Hi.
  assert (i = 0 \/ i = 1 \/ i = 2 \/ i = 3 \/ i = 4) as Hc by lia.
  destruct Hc as [->|[->|[->|[->| ->]]]]; eexists; split; reflexivity.
Qed.

Lemma choose_palette_out_of_range (i : Z) (r : Random) :
  i < -5 \/ 5 <= i -> _choose_palette (Some i) r = Raise ValueError.
Proof.
  intros Hi. unfold _choose_palette, py_getitem.
  change (Z.of_nat (length PALETTES)) with 5.
  destruct (Z.ltb_spec i 0).
  - destruct (Z.leb_spec 0 (i + 5)); [lia|reflexivity].
  - destruct (Z.leb_spec 0 i); [|lia].
    destruct (Z.ltb_spec i 5); [lia|reflexivity].
Qed.

Lemma choose_palette_omitted (r : Random) :
  exists i p r',
    _choose_palette None r = Ok (p, r') /\
    (i < 5)%nat /\ PALETTES !! i = Some p /\
    rng_log r' = rng_log r ++ [DrawChoice 5 i].
Proof.
  unfold _choose_palette, choice. change (length PALETTES) with 5%nat. simpl.
  pose proof (rng_randbelow_lt 5 (rng_gen r) ltac:(lia)) as Hlt.
  destruct (rng_randbelow 5 (rng_gen r)) as [i g]. simpl in Hlt.
  destruct (PALETTES !! i) as [p|] eqn:Hp.
  - exists i, p. eexists. repeat split; [exact Hlt|exact Hp].
  - apply lookup_ge_None in Hp. simpl in Hp. lia.
Qed.

(** Indices from -5 to -1 count from the end of the table. *)
Lemma choose_palette_wraps (i : nat) (r : Random) :
  (i < 5)%nat ->
  exists p, PALETTES !! i = Some p /\
            _choose_palette (Some (Z.of_nat i - 5)) r = Ok (p, r).
Proof.
  intros Hi.
  do 5 (destruct i as [|i]; [eexists; split; reflexivity|]). lia.
Qed.

(** C6, evaluated on the code: an explicit index of -1 is not refused, the
    tuple lookup counts it from the end and the last palette of the table is
    returned; the same holds down to -5. *)
Theorem choose_palette_negative_index (r : Random) :
  _choose_palette (Some (-1)) r =
    Ok ([(30, 30, 30); (70, 70, 70); (120, 120, 120); (200, 200, 200); (250, 250, 250)], r) /\
  Forall (fun i => exists p, PALETTES !! Z.to_nat (i + 5) = Some p /\
                             _choose_palette (Some i) r = Ok (p, r))
         [-5; -4; -3; -2; -1].
Proof.
  split; [reflexivity|].
  repeat (constructor; [eexists; split; reflexivity|]). constructor.
Qed.

End PaletteSelection.

(** ** Chunk framing *)

Lemma pack_u32_be_Ok (v : Z) :
  0 <= v < 2 ^ 32 ->
  exists bs, pack_u32_be v = Ok bs /\ length bs = 4%nat /\
             Forall is_byte bs /\ unpack_be bs = v.
Proof.
  intros Hv. unfold pack_u32_be.
  destruct (Z.leb_spec 0 v); [|lia]. destruct (Z.ltb_spec v (2 ^ 32)); [|lia].
  simpl. eexists. split; [reflexivity|]. split; [reflexivity|].
  change (2 ^ 32) with 4294967296 in *.
  split.
  - unfold is_byte. repeat constructor; apply Z.mod_pos_bound; lia.
  - unfold unpack_be. simpl. Z.to_euclidean_division_equations. lia.
Qed.

Lemma pack_u32_be_out_of_range (v : Z) :
  v < 0 \/ 2 ^ 32 <= v -> pack_u32_be v = Raise StructError.
Proof.
  intros Hv. unfold pack_u32_be.
  destruct (Z.leb_spec 0 v); [|reflexivity].
  destruct (Z.ltb_spec v (2 ^ 32)); [lia|reflexivity].
Qed.

Section Framing.
Context {ZL : Zlib}.

Lemma crc32_mask (d : bytes) : Z.land (crc32 d) 4294967295 = crc32 d.
Proof.
  change 4294967295 with (Z.ones 32). rewrite Z.land_ones by lia.
  apply Z.mod_small, crc32_range.
Qed.

(** C3: a chunk with a four-byte tag is the big-endian length of the
    payload on four bytes, the tag, the payload, and on the last four bytes
    the big-endian CRC-32 of tag followed by payload. *)
Theorem png_chunk_framing (chunk_type data : bytes) :
  length chunk_type = 4%nat ->
  Z.of_nat (length data) < 2 ^ 32 ->
  exists len crc,
    _png_chunk chunk_type data = Ok (len ++ chunk_type ++ data ++ crc) /\
    length len = 4%nat /\ Forall is_byte len /\
    unpack_be len = Z.of_nat (length data) /\
    length crc = 4%nat /\ Forall is_byte crc /\
    unpack_be crc = crc32 (chunk_type ++ data).
Proof.
  intros Htag Hlen. unfold _png_chunk. rewrite crc32_mask.
  destruct (pack_u32_be_Ok (Z.of_nat (length data)) ltac:(lia))
    as (len & -> & Hl4 & Hlb & Hlv).
  destruct (pack_u32_be_Ok (crc32 (chunk_type ++ data)) (crc32_range _))
    as (crc & Hcrc & Hc4 & Hcb & Hcv).
  simpl. rewrite Hcrc. simpl. exists len, crc. repeat split; assumption.
Qed.

End Framing.

Lemma png_chunk_framing_witness :
  length IEND = 4%nat /\ Z.of_nat (length (@nil Z)) < 2 ^ 32 /\
  exists len crc,
    _png_chunk IEND [] = Ok (len ++ IEND ++ [] ++ crc) /\
    length len = 4%nat /\ Forall is_byte len /\
    unpack_be len = Z.of_nat (length (@nil Z)) /\
    length crc = 4%nat /\ Forall is_byte crc /\
    unpack_be crc = crc32 (IEND ++ []).
Proof.
  split; [reflexivity|]. split; [reflexivity|].
  apply (png_chunk_framing IEND []); reflexivity.
Defined.

(** ** Grid synthesis *)

Section Synthesis.
Context {RS : RandomSource}.

(** A loop whose body appends one element to its accumulator and logs the
    draws of that element appends them all, in order. *)
Lemma for_range_append {T X} (body : list X -> Gen (list X)) (f : T -> X)
    (P : T -> Prop) (ev : T -> list draw) :
  (forall st r, exists t r',
      body st r = Ok (st ++ [f t], r') /\ P t /\ rng_log r' = rng_log r ++ ev t) ->
  forall n st r, exists ts r',
      for_range n body st r = Ok (st ++ map f ts, r') /\
      length ts = n /\ Forall P ts /\
      rng_log r' = rng_log r ++ concat (map ev ts).
Proof.
  intros Hbody n. induction n as [|n IH]; intros st r.
  - exists [], r. simpl. rewrite !app_nil_r. repeat split. constructor.
  - destruct (Hbody st r) as (t & r1 & Hb & Ht & Hlog1).
    destruct (IH (st ++ [f t]) r1) as (ts & r' & Hloop & Hlen & Hts & Hlog).
    exists (t :: ts), r'. simpl. unfold mbind, gen_bind. rewrite Hb, Hloop.
    rewrite <- app_assoc. simpl. repeat split.
    + lia.
    + constructor; assumption.
    + rewrite Hlog, Hlog1, <- app_assoc. reflexivity.
Qed.

Variable cfg : PixelArtConfig.
Variable background_colour : colour.
Variable palette : list colour.
Hypothesis palette_nonempty : palette <> [].

Lemma choice_palette (r : Random) :
  exists i c,
    (i < length palette)%nat /\ palette !! i = Some c /\
    choice palette r =
      Ok (c, {| rng_gen := snd (rng_randbelow (length palette) (rng_gen r));
                rng_log := rng_log r ++ [DrawChoice (length palette) i] |}).
Proof.
  unfold choice. destruct palette as [|c0 rest] eqn:Hp; [contradiction|].
  rewrite <- Hp.
  assert (0 < length palette)%nat as Hpos by (rewrite Hp; simpl; lia).
  pose proof (rng_randbelow_lt _ (rng_gen r) Hpos) as Hlt.
  destruct (rng_randbelow (length palette) (rng_gen r)) as [i g]. simpl in Hlt.
  destruct (palette !! i) as [c|] eqn:Hc.
  - exists i, c. repeat split; assumption.
  - apply lookup_ge_None in Hc. lia.
Qed.

Lemma cell_body_spec (row : list colour) (r : Random) :
  exists c r',
    cell_body cfg background_colour palette row r =
      Ok (row ++ [cell_colour background_colour palette c], r') /\
    cell_wf (background_ratio cfg) palette c /\
    rng_log r' = rng_log r ++ cell_draws (length palette) c.
Proof.
  unfold cell_body, mbind, gen_bind, random.
  pose proof (rng_random_unit (rng_gen r)) as [Hu0 Hu1].
  destruct (rng_random (rng_gen r)) as [u g]. simpl in Hu0, Hu1.
  destruct (Qlt_bool u (background_ratio cfg)) eqn:Hlt.
  - exists {| first_draw := u; palette_draw := None |}. eexists.
    split; [reflexivity|]. split; [|reflexivity].
    apply Qlt_bool_iff in Hlt. repeat split; simpl; try assumption.
    + intros _. assumption.
    + discriminate.
  - apply Qlt_bool_false_iff in Hlt.
    match goal with |- context [choice palette ?r1] =>
      destruct (choice_palette r1) as (i & c & Hi & Hc & ->) end.
    exists {| first_draw := u; palette_draw := Some i |}. eexists.
    unfold cell_colour. simpl. rewrite Hc. simpl.
    split; [reflexivity|]. split.
    + repeat split; simpl; try assumption; try discriminate.
      * intros Hlt'. contradiction.
      * intros j [= <-]. exact Hi.
    + rewrite <- app_assoc. reflexivity.
Qed.

Lemma row_body_spec (grid : list (list colour)) (r : Random) :
  exists cells r',
    row_body cfg background_colour palette grid r =
      Ok (grid ++ [completed_row cfg (map (cell_colour background_colour palette) cells)],
          r') /\
    (length cells = generated_columns cfg /\
     Forall (cell_wf (background_ratio cfg) palette) cells) /\
    rng_log r' = rng_log r ++ concat (map (cell_draws (length palette)) cells).
Proof.
  unfold row_body, mbind, gen_bind.
  destruct (for_range_append _ _ _ _ cell_body_spec
              (range_len (grid_cells cfg / (if vertical_or_quadrant cfg then 2 else 1)))
              [] r) as (cells & r' & Hloop & Hlen & Hwf & Hlog).
  exists cells, r'. rewrite Hloop. simpl.
  split; [reflexivity|]. split; [split; assumption|assumption].
Qed.

(** The loop of source lines 136-147. *)
Lemma rows_loop_spec (r : Random) :
  exists cells r',
    for_range (range_len (grid_cells cfg))
      (row_body cfg background_colour palette) [] r =
      Ok (map (fun cs => completed_row cfg
                           (map (cell_colour background_colour palette) cs)) cells,
          r') /\
    length cells = range_len (grid_cells cfg) /\
    Forall (fun cs => length cs = generated_columns cfg /\
                      Forall (cell_wf (background_ratio cfg) palette) cs) cells /\
    rng_log r' =
      rng_log r ++ concat (map (fun cs => concat (map (cell_draws (length palette)) cs))
                               cells).
Proof.
  exact (for_range_append _ _ _ _ row_body_spec (range_len (grid_cells cfg)) [] r).
Qed.

End Synthesis.

(** ** Mirroring *)

Lemma py_getitem_nat {A} (l : list A) (i : nat) (x : A) :
  l !! i = Some x -> py_getitem l (Z.of_nat i) = Ok x.
Proof.
  intros Hx. pose proof (lookup_lt_Some _ _ _ Hx) as Hlt.
  unfold py_getitem.
  destruct (Z.ltb_spec (Z.of_nat i) 0); [lia|].
  destruct (Z.leb_spec 0 (Z.of_nat i)); [|lia].
  destruct (Z.ltb_spec (Z.of_nat i) (Z.of_nat (length l))); [|lia].
  simpl. rewrite Nat2Z.id, Hx. reflexivity.
Qed.

Section Mirror.
Variable grid : list (list colour).
Local Abbreviation mirrored_upto := (mirrored_upto grid).

Lemma mirrored_upto_length k :
  (k <= length grid)%nat -> length (mirrored_upto k) = length grid.
Proof.
  intros Hk. unfold mirrored_upto.
  rewrite length_app, length_reverse, !length_take. lia.
Qed.

Lemma mirror_step_spec k :
  (k < length grid / 2)%nat ->
  mirror_step (mirrored_upto k) k = Ok (mirrored_upto (S k)).
Proof.
  intros Hk.
  assert (2 * (length grid / 2) <= length grid)%nat as Hhalf
    by apply Nat.Div0.mul_div_le.
  destruct (lookup_lt_is_Some_2 grid k ltac:(lia)) as [src Hsrc].
  destruct (lookup_lt_is_Some_2 grid (length grid - S k) ltac:(lia)) as [old Hold].
  assert (mirrored_upto k !! k = Some src) as Hget.
  { unfold mirrored_upto. rewrite lookup_app_l by (rewrite length_take; lia).
    rewrite lookup_take_lt by lia. exact Hsrc. }
  unfold mirror_step. rewrite (py_getitem_nat _ _ _ Hget). simpl.
  rewrite mirrored_upto_length by lia.
  destruct (Z.leb_spec 0 (- (Z.of_nat k + 1) + Z.of_nat (length grid))); [|lia].
  f_equal.
  replace (Z.to_nat (- (Z.of_nat k + 1) + Z.of_nat (length grid)))
    with (length grid - S k)%nat by lia.
  unfold mirrored_upto.
  replace (length grid - k)%nat with (S (length grid - S k)) by lia.
  rewrite (take_S_r _ _ _ Hold), (take_S_r _ _ _ Hsrc).
  rewrite reverse_snoc, <- !app_assoc. simpl.
  rewrite insert_app_r_alt by (rewrite length_take; lia).
  rewrite length_take.
  replace (length grid - S k - (length grid - S k) `min` length grid)%nat
    with 0%nat by lia.
  reflexivity.
Qed.

Lemma mirror_loop_spec m k :
  (k + m <= length grid / 2)%nat ->
  mirror_loop (seq k m) (mirrored_upto k) = Ok (mirrored_upto (k + m)).
Proof.
  revert k. induction m as [|m IH]; intros k Hk; simpl.
  - rewrite Nat.add_0_r. reflexivity.
  - rewrite mirror_step_spec by lia. simpl.
    rewrite IH by lia. f_equal. f_equal. lia.
Qed.

Lemma mirror_grid_horizontally_spec :
  _mirror_grid_horizontally grid = Ok (mirror_rows grid).
Proof.
  unfold _mirror_grid_horizontally.
  assert (grid = mirrored_upto 0) as H0.
  { unfold mirrored_upto. rewrite Nat.sub_0_r, firstn_all. simpl.
    rewrite app_nil_r. reflexivity. }
  rewrite H0 at 2. rewrite mirror_loop_spec by lia. reflexivity.
Qed.

Lemma mirror_rows_length : length (mirror_rows grid) = length grid.
Proof.
  assert (2 * (length grid / 2) <= length grid)%nat by apply Nat.Div0.mul_div_le.
  apply (mirrored_upto_length (length grid / 2)). lia.
Qed.

Lemma mirror_rows_upper i :
  (i < length grid / 2)%nat ->
  mirror_rows grid !! i = grid !! i /\
  mirror_rows grid !! (length grid - 1 - i)%nat = grid !! i.
Proof.
  intros Hi.
  assert (2 * (length grid / 2) <= length grid)%nat by apply Nat.Div0.mul_div_le.
  unfold mirror_rows. split.
  - rewrite lookup_app_l by (rewrite length_take; lia).
    apply lookup_take_lt. lia.
  - rewrite lookup_app_r by (rewrite length_take; lia).
    rewrite length_take.
    rewrite reverse_lookup by (rewrite length_take; lia).
    rewrite length_take, lookup_take_lt by lia. f_equal. lia.
Qed.

(** Row [i] and row [len - 1 - i] of the mirrored list are the same row. *)
Lemma mirror_rows_symmetric i :
  (i < length grid)%nat ->
  mirror_rows grid !! i = mirror_rows grid !! (length grid - 1 - i)%nat.
Proof.
  intros Hi.
  assert (2 * (length grid / 2) <= length grid)%nat as Hh by apply Nat.Div0.mul_div_le.
  destruct (Nat.lt_ge_cases i (length grid / 2)) as [Hlo|Hge].
  - destruct (mirror_rows_upper i Hlo) as [-> ->]. reflexivity.
  - destruct (Nat.lt_ge_cases (length grid - 1 - i) (length grid / 2)) as [Hlo'|Hge'].
    + destruct (mirror_rows_upper _ Hlo') as [H1 H2].
      rewrite H1, <- H2. f_equal. lia.
    + f_equal.
      assert (length grid < 2 * S (length grid / 2))%nat.
      { pose proof (Nat.div_mod_eq (length grid) 2).
        pose proof (Nat.mod_upper_bound (length grid) 2). lia. }
      lia.
Qed.

End Mirror.

(** ** Completing a row *)

Lemma apply_symmetry_row_vertical (row : list colour) :
  _apply_symmetry_row row "vertical" =
    take (length row / 2) row ++ reverse (take (length row / 2) row).
Proof. reflexivity. Qed.

Lemma str_in_2 s a b : str_in s [a; b] = (String.eqb s a || String.eqb s b).
Proof. unfold str_in. simpl. rewrite orb_false_r. reflexivity. Qed.

Lemma completed_row_mirrored cfg (row : list colour) :
  str_in (symmetry cfg) ["vertical"; "quadrant"]%string = true ->
  completed_row cfg row =
    take (length row / 2) row ++ reverse (take (length row / 2) row).
Proof. intros Hvq. unfold completed_row. rewrite Hvq. reflexivity. Qed.

Lemma completed_row_unchanged cfg (row : list colour) :
  str_in (symmetry cfg) ["vertical"; "quadrant"]%string = false ->
  completed_row cfg row = row.
Proof.
  intros Hvq. unfold completed_row. rewrite Hvq.
  rewrite str_in_2 in Hvq. apply orb_false_iff in Hvq as [Hv Hq].
  unfold _apply_symmetry_row. rewrite Hv, Hq.
  destruct (String.eqb (symmetry cfg) "none"); [reflexivity|].
  destruct (String.eqb (symmetry cfg) "horizontal"); reflexivity.
Qed.

(** Under the vertical and quadrant modes the completed row is no longer
    than the generated half. *)
Lemma completed_row_mirrored_length cfg (row : list colour) :
  str_in (symmetry cfg) ["vertical"; "quadrant"]%string = true ->
  length (completed_row cfg row) = (2 * (length row / 2))%nat.
Proof.
  intros Hvq. rewrite completed_row_mirrored by assumption.
  pose proof (Nat.Div0.mul_div_le (length row) 2).
  rewrite length_app, length_reverse, length_take. lia.
Qed.

Lemma completed_row_Forall cfg (P : colour -> Prop) (row : list colour) :
  Forall P row -> Forall P (completed_row cfg row).
Proof.
  intros Hrow.
  destruct (str_in (symmetry cfg) ["vertical"; "quadrant"]%string) eqn:Hvq.
  - rewrite completed_row_mirrored by assumption.
    apply Forall_app. split; [|apply Forall_reverse]; apply Forall_take; assumption.
  - rewrite completed_row_unchanged by assumption. assumption.
Qed.

Lemma mirror_rows_Forall {A} (P : A -> Prop) (grid : list A) :
  Forall P grid -> Forall P (mirror_rows grid).
Proof.
  intros Hg. unfold mirror_rows.
  apply Forall_app. split; [|apply Forall_reverse]; apply Forall_take; assumption.
Qed.

Lemma cell_colour_Forall (P : colour -> Prop) background_colour palette cells :
  P background_colour -> Forall P palette ->
  Forall P (map (cell_colour background_colour palette) cells).
Proof.
  intros Hbg Hpal. apply Forall_map, Forall_forall. intros c _.
  unfold cell_colour. destruct (palette_draw c) as [i|]; [|exact Hbg].
  destruct (palette !! i) as [x|] eqn:Hx; simpl; [|exact Hbg].
  exact (proj1 (Forall_lookup P palette) Hpal i x Hx).
Qed.

(** ** The coarse grid *)

Section CoarseGrid.
Context {RS : RandomSource}.

(** The coarse grid in closed form, with the draws made for it. *)
Lemma coarse_grid_spec (cfg : PixelArtConfig) (background_colour : colour)
    (palette : list colour) (r : Random) :
  palette <> [] ->
  exists (cells : list (list cell_trace)) (r' : Random),
    let grid0 := map (fun cs => completed_row cfg
                         (map (cell_colour background_colour palette) cs)) cells in
    coarse_grid cfg background_colour palette r =
      Ok (if str_in (symmetry cfg) ["horizontal"; "quadrant"]%string
          then mirror_rows grid0 else grid0, r') /\
    length cells = range_len (grid_cells cfg) /\
    Forall (fun cs => length cs = generated_columns cfg /\
                      Forall (cell_wf (background_ratio cfg) palette) cs) cells /\
    generated_columns cfg =
      (if str_in (symmetry cfg) ["vertical"; "quadrant"]%string
       then Z.to_nat (grid_cells cfg / 2) else Z.to_nat (grid_cells cfg)) /\
    rng_log r' =
      rng_log r ++ concat (map (fun cs => concat (map (cell_draws (length palette)) cs))
                               cells).
Proof.
  intros Hne.
  destruct (rows_loop_spec cfg background_colour palette Hne r)
    as (cells & r' & Hloop & Hlen & Hwf & Hlog).
  exists cells, r'. simpl. unfold coarse_grid, mbind, gen_bind. rewrite Hloop.
  repeat split; try assumption.
  - destruct (str_in (symmetry cfg) ["horizontal"; "quadrant"]%string); [|reflexivity].
    unfold gen_lift. rewrite mirror_grid_horizontally_spec. reflexivity.
  - unfold generated_columns, range_len.
    destruct (str_in (symmetry cfg) ["vertical"; "quadrant"]%string); [reflexivity|].
    rewrite Z.div_1_r. reflexivity.
Qed.


End CoarseGrid.

(** ** Pixel expansion *)

Lemma bytearray_extend_Ok (buf items : bytes) :
  Forall is_byte items -> bytearray_extend buf items = Ok (buf ++ items).
Proof.
  intros Hb. revert buf. induction Hb as [|x items Hx _ IH]; intros buf; simpl.
  - rewrite app_nil_r. reflexivity.
  - unfold is_byte in Hx.
    destruct (Z.leb_spec 0 x); [|lia]. destruct (Z.ltb_spec x 256); [|lia]. simpl.
    rewrite IH, <- app_assoc. reflexivity.
Qed.

Lemma fold_left_app_concat {A B} (f : A -> list B) (l : list A) (init : list B) :
  fold_left (fun acc x => acc ++ f x) l init = init ++ concat (map f l).
Proof.
  revert init. induction l as [|x l IH]; intros init; simpl.
  - rewrite app_nil_r. reflexivity.
  - rewrite IH, <- app_assoc. reflexivity.
Qed.

Lemma for_each_append {A B} (body : list B -> A -> result (list B))
    (f : A -> list B) (P : A -> Prop) :
  (forall st x, P x -> body st x = Ok (st ++ f x)) ->
  forall xs st, Forall P xs -> for_each xs body st = Ok (st ++ concat (map f xs)).
Proof.
  intros Hbody xs st Hxs. revert st.
  induction Hxs as [|x xs Hx _ IH]; intros st; simpl.
  - rewrite app_nil_r. reflexivity.
  - rewrite (Hbody st x Hx). simpl. rewrite IH, <- app_assoc. reflexivity.
Qed.

Lemma map_replicate {A B} (f : A -> B) (k : nat) (x : A) :
  map f (replicate k x) = replicate k (f x).
Proof. induction k as [|k IH]; simpl; [reflexivity|rewrite IH; reflexivity]. Qed.

Lemma concat_const_seq {A} (x : A) (s k : nat) :
  concat (map (fun _ => [x]) (seq s k)) = replicate k x.
Proof.
  revert s. induction k as [|k IH]; intros s; simpl; [reflexivity|].
  rewrite IH. reflexivity.
Qed.

Lemma expanded_row_bytes (k : nat) (row : list colour) :
  concat (map colour_items (concat (map (replicate k) row))) =
  concat (map (fun c => concat (replicate k (colour_items c))) row).
Proof.
  induction row as [|c row IH]; simpl; [reflexivity|].
  rewrite map_app, concat_app, IH, map_replicate. reflexivity.
Qed.

Lemma list_repeat_Ok {A} (x : A) (n : Z) :
  - 2 ^ 63 <= n < 2 ^ 63 -> list_repeat x n = Ok (replicate (range_len n) x).
Proof.
  intros Hn. unfold list_repeat.
  destruct (Z.leb_spec (- 2 ^ 63) n); [|lia].
  destruct (Z.ltb_spec n (2 ^ 63)); [|lia]. reflexivity.
Qed.

Lemma pixel_row_body_spec (cell_size : Z) (pixel_rows : list bytes) (row : list colour) :
  - 2 ^ 63 <= cell_size < 2 ^ 63 ->
  Forall is_colour row ->
  pixel_row_body cell_size pixel_rows row =
    Ok (pixel_rows ++ replicate (range_len cell_size) (row_pixels cell_size row)).
Proof.
  intros Hcs Hrow. unfold pixel_row_body.
  rewrite (for_each_append _ (replicate (range_len cell_size)) (fun _ => True)).
  - simpl. rewrite (for_each_append _ colour_items is_colour).
    + simpl. rewrite expanded_row_bytes.
      rewrite (fold_left_app_concat (fun _ => [_])), concat_const_seq. reflexivity.
    + intros st c Hc. apply bytearray_extend_Ok, Hc.
    + apply Forall_concat, Forall_map, Forall_forall. intros c Hc.
      apply Forall_replicate.
      exact (proj1 (Forall_forall is_colour row) Hrow c Hc).
  - intros st c _. rewrite list_repeat_Ok by exact Hcs. reflexivity.
  - apply Forall_forall. intros; exact I.
Qed.

Lemma pixel_rows_of_spec (cell_size : Z) (grid : list (list colour)) :
  - 2 ^ 63 <= cell_size < 2 ^ 63 ->
  Forall (Forall is_colour) grid ->
  pixel_rows_of cell_size grid = Ok (pixel_matrix cell_size grid).
Proof.
  intros Hcs Hgrid. unfold pixel_rows_of, pixel_matrix.
  rewrite (for_each_append _
             (fun row => replicate (range_len cell_size) (row_pixels cell_size row))
             (Forall is_colour)).
  - reflexivity.
  - intros st row Hrow. apply pixel_row_body_spec; assumption.
  - exact Hgrid.
Qed.

Lemma row_pixels_length (cell_size : Z) (row : list colour) :
  length (row_pixels cell_size row) = (3 * (length row * range_len cell_size))%nat.
Proof.
  unfold row_pixels. induction row as [|[[r g] b] row IH]; simpl; [lia|].
  rewrite length_app, IH.
  assert (forall k, length (concat (replicate k [r; g; b])) = (3 * k)%nat) as Hk.
  { induction k as [|k IHk]; simpl; [reflexivity|]. rewrite IHk. lia. }
  rewrite Hk. lia.
Qed.

Lemma pixel_matrix_length (cell_size : Z) (grid : list (list colour)) :
  length (pixel_matrix cell_size grid) = (length grid * range_len cell_size)%nat.
Proof.
  unfold pixel_matrix. induction grid as [|row grid IH]; simpl; [reflexivity|].
  rewrite length_app, length_replicate, IH. reflexivity.
Qed.

Lemma pixel_matrix_rows (cell_size : Z) (grid : list (list colour)) (w : nat) :
  Forall (fun row => length row = w) grid ->
  Forall (fun pr => length pr = (3 * (w * range_len cell_size))%nat)
         (pixel_matrix cell_size grid).
Proof.
  intros Hgrid. unfold pixel_matrix.
  apply Forall_concat, Forall_map.
  eapply Forall_impl; [exact Hgrid|]. intros row Hrow. simpl.
  apply Forall_replicate. rewrite row_pixels_length, Hrow. reflexivity.
Qed.

(** A row whose cells all hold [c] expands to repetitions of the three
    bytes of [c]. *)
Lemma row_pixels_constant (cell_size : Z) (c : colour) (row : list colour) :
  Forall (eq c) row ->
  row_pixels cell_size row =
    concat (replicate (length row * range_len cell_size) (colour_items c)).
Proof.
  intros Hrow. unfold row_pixels.
  induction Hrow as [|x row <- _ IH]; simpl; [reflexivity|].
  rewrite IH, replicate_add, concat_app. reflexivity.
Qed.

(** ** The encoder *)

Lemma pack_u32_be_in_range (v : Z) :
  0 <= v < 2 ^ 32 -> pack_u32_be v = Ok (be32 v).
Proof.
  intros Hv. unfold pack_u32_be.
  destruct (Z.leb_spec 0 v); [|lia]. destruct (Z.ltb_spec v (2 ^ 32)); [|lia].
  reflexivity.
Qed.

Lemma unpack_be32 (v : Z) : 0 <= v < 2 ^ 32 -> unpack_be (be32 v) = v.
Proof.
  intros Hv. destruct (pack_u32_be_Ok v Hv) as (bs & Hbs & _ & _ & Hun).
  rewrite pack_u32_be_in_range in Hbs by assumption. injection Hbs as <-. exact Hun.
Qed.

Section Encoding.
Context {ZL : Zlib}.

Lemma png_chunk_in_range (chunk_type data : bytes) :
  Z.of_nat (length data) < 2 ^ 32 ->
  _png_chunk chunk_type data =
    Ok (be32 (Z.of_nat (length data)) ++ chunk_type ++ data
        ++ be32 (crc32 (chunk_type ++ data))).
Proof.
  intros Hlen. unfold _png_chunk. rewrite crc32_mask.
  rewrite (pack_u32_be_in_range (Z.of_nat (length data))) by lia. simpl.
  rewrite pack_u32_be_in_range by apply crc32_range. reflexivity.
Qed.

Lemma png_chunk_too_long (chunk_type data : bytes) :
  2 ^ 32 <= Z.of_nat (length data) ->
  _png_chunk chunk_type data = Raise StructError.
Proof.
  intros Hlen. unfold _png_chunk.
  rewrite (pack_u32_be_out_of_range (Z.of_nat (length data))) by lia. reflexivity.
Qed.

(** What [_write_png] leaves in the file: the signature and the header
    chunk are always written once the header fields pack; the two other
    chunks follow unless the compressed stream is too long for a length
    field. *)
Lemma write_png_spec (width height : Z) (rows : list bytes) (existing : option bytes) :
  0 <= width < 2 ^ 32 -> 0 <= height < 2 ^ 32 ->
  exists c1 st rest,
    _write_png width height rows existing = (st, Some (png_signature ++ c1 ++ rest)) /\
    _png_chunk IHDR (be32 width ++ be32 height ++ [8; 2; 0; 0; 0]) = Ok c1 /\
    (Z.of_nat (length (compress (filtered rows))) < 2 ^ 32 ->
     exists c2 c3,
       st = Ok tt /\ rest = c2 ++ c3 /\
       _png_chunk IDAT (compress (filtered rows)) = Ok c2 /\
       _png_chunk IEND [] = Ok c3).
Proof.
  intros Hw Hh.
  set (ihdr := be32 width ++ be32 height ++ [8; 2; 0; 0; 0]).
  assert (pack_IIBBBBB width height 8 2 0 0 0 = Ok ihdr) as Hpack.
  { unfold pack_IIBBBBB. rewrite !pack_u32_be_in_range by assumption. reflexivity. }
  assert (Z.of_nat (length ihdr) < 2 ^ 32) as Hihdr by (unfold ihdr; simpl; lia).
  pose proof (png_chunk_in_range IHDR ihdr Hihdr) as Hc1.
  pose proof (png_chunk_in_range IEND [] ltac:(simpl; lia)) as Hc3.
  set (c1 := be32 _ ++ IHDR ++ ihdr ++ be32 _) in Hc1.
  set (c3 := be32 _ ++ IEND ++ [] ++ be32 _) in Hc3.
  unfold _write_png. fold (filtered rows). rewrite Hpack.
  unfold mbind, fileio_bind, io_lift, open_wb, fh_write. cbv beta iota.
  rewrite Hc1. cbv beta iota.
  cbn [fmap option_fmap option_map].
  destruct (Z.lt_ge_cases (Z.of_nat (length (compress (filtered rows)))) (2 ^ 32))
    as [Hlt|Hge].
  - rewrite (png_chunk_in_range IDAT _ Hlt). cbv beta iota. rewrite Hc3.
    set (c2 := be32 _ ++ IDAT ++ _ ++ be32 _).
    exists c1, (Ok tt), (c2 ++ c3). split; [|split; [reflexivity|]].
    + rewrite <- !app_assoc. reflexivity.
    + intros _. exists c2, c3. repeat split.
  - rewrite (png_chunk_too_long IDAT _ Hge). cbv beta iota.
    exists c1, (Raise StructError), []. split; [|split; [reflexivity|]].
    + rewrite app_nil_r. reflexivity.
    + intros Hlt. lia.
Qed.

(** Opening the file truncates it: what it held before does not show in
    the result. *)
Lemma write_png_truncates (width height : Z) (rows : list bytes)
    (existing1 existing2 : option bytes) :
  0 <= width < 2 ^ 32 -> 0 <= height < 2 ^ 32 ->
  _write_png width height rows existing1 = _write_png width height rows existing2.
Proof.
  intros Hw Hh. unfold _write_png, pack_IIBBBBB.
  rewrite !pack_u32_be_in_range by assumption. reflexivity.
Qed.

End Encoding.

(** ** The whole run *)

Lemma palettes_wellformed :
  Forall (fun p => p <> [] /\ Forall is_colour p) PALETTES.
Proof.
  unfold PALETTES, is_colour, is_byte.
  repeat (constructor; [split; [discriminate|repeat constructor; simpl; lia]|]).
  constructor.
Qed.

Lemma py_floordiv_nonzero a b : b <> 0 -> py_floordiv a b = Ok (a / b).
Proof.
  intros Hb. unfold py_floordiv. destruct (Z.eqb_spec b 0); [contradiction|reflexivity].
Qed.

Section Run.
Context {RS : RandomSource}.

Lemma choose_palette_member (cfg : PixelArtConfig) (r : Random) :
  palette_index_ok cfg ->
  exists p r', _choose_palette (palette_index cfg) r = Ok (p, r') /\ p ∈ PALETTES.
Proof.
  unfold palette_index_ok. destruct (palette_index cfg) as [i|].
  - intros Hi. destruct (Z.lt_ge_cases i 0) as [Hneg|Hnn].
    + destruct (choose_palette_wraps (Z.to_nat (i + 5)) r ltac:(lia)) as (p & Hp & Hc).
      replace (Z.of_nat (Z.to_nat (i + 5)) - 5) with i in Hc by lia.
      exists p, r. split; [exact Hc|]. apply list_elem_of_lookup. eauto.
    + destruct (choose_palette_in_range i r ltac:(lia)) as (p & Hp & Hc).
      exists p, r. split; [exact Hc|]. apply list_elem_of_lookup. eauto.
  - intros _. destruct (choose_palette_omitted r) as (i & p & r' & Hc & _ & Hp & _).
    exists p, r'. split; [exact Hc|]. apply list_elem_of_lookup. eauto.
Qed.

Lemma determine_background_member (palette : list colour) :
  palette <> [] -> exists bg, _determine_background palette = Ok bg /\ bg ∈ palette.
Proof.
  intros Hne. destruct palette as [|c0 rest]; [contradiction|].
  destruct (min_scan_split colour_sum c0 rest) as (pre & post & Heq & _).
  exists (min_scan colour_sum c0 rest). split; [reflexivity|].
  rewrite Heq. apply elem_of_app. right. apply elem_of_cons. left. reflexivity.
Qed.

Lemma coarse_grid_Forall (cfg : PixelArtConfig) (bg : colour) (palette : list colour)
    (P : colour -> Prop) (r r' : Random) (grid : list (list colour)) :
  palette <> [] -> P bg -> Forall P palette ->
  coarse_grid cfg bg palette r = Ok (grid, r') ->
  Forall (Forall P) grid.
Proof.
  intros Hne Hbg Hpal Hgrid.
  destruct (coarse_grid_spec cfg bg palette r Hne) as (cells & r2 & Hspec & _).
  simpl in Hspec. rewrite Hspec in Hgrid. injection Hgrid as <- _.
  assert (Forall (Forall P)
            (map (fun cs => completed_row cfg (map (cell_colour bg palette) cs)) cells))
    as H0.
  { apply Forall_map, Forall_forall. intros cs _.
    apply completed_row_Forall, cell_colour_Forall; assumption. }
  destruct (str_in (symmetry cfg) ["horizontal"; "quadrant"]%string);
    [apply mirror_rows_Forall|]; exact H0.
Qed.

(** The cell size of an accepted configuration is no larger than [size]
    in absolute value, so it is a valid repetition count when [size] is. *)
Lemma cell_size_fits (cfg : PixelArtConfig) :
  __post_init__ cfg = Ok tt -> - 2 ^ 63 < size cfg < 2 ^ 63 ->
  - 2 ^ 63 <= size cfg / grid_cells cfg < 2 ^ 63.
Proof.
  intros Hvalid Hsize.
  destruct (post_init_Ok cfg Hvalid) as (Hnz & Hmod & _).
  pose proof (proj2 (Z.div_exact (size cfg) (grid_cells cfg) Hnz) Hmod) as Hex.
  change (2 ^ 63) with 9223372036854775808 in *.
  nia.
Qed.

(** A validated configuration with an accepted palette index and a [size]
    that fits an index always renders: palette, background, coarse grid and
    pixel rows exist. *)
Lemma render_spec (cfg : PixelArtConfig) (r : Random) :
  __post_init__ cfg = Ok tt -> palette_index_ok cfg ->
  - 2 ^ 63 < size cfg < 2 ^ 63 ->
  exists palette bg r1 grid r2,
    _choose_palette (palette_index cfg) r = Ok (palette, r1) /\
    palette ∈ PALETTES /\
    _determine_background palette = Ok bg /\ bg ∈ palette /\
    coarse_grid cfg bg palette r1 = Ok (grid, r2) /\
    render cfg r = Ok (pixel_matrix (size cfg / grid_cells cfg) grid, r2).
Proof.
  intros Hvalid Hidx Hfits.
  destruct (post_init_Ok cfg Hvalid) as (Hgc & _).
  pose proof (cell_size_fits cfg Hvalid Hfits) as Hcs.
  destruct (choose_palette_member cfg r Hidx) as (palette & r1 & Hch & Hmem).
  pose proof (proj1 (Forall_forall _ _) palettes_wellformed palette Hmem) as [Hne Hcol].
  destruct (determine_background_member palette Hne) as (bg & Hbg & Hbgmem).
  destruct (coarse_grid_spec cfg bg palette r1 Hne) as (cells & r2 & Hgrid & _).
  simpl in Hgrid.
  eexists palette, bg, r1, _, r2.
  split; [exact Hch|]. split; [exact Hmem|]. split; [exact Hbg|].
  split; [exact Hbgmem|]. split; [exact Hgrid|].
  unfold render, mbind, gen_bind, gen_lift. rewrite Hch, Hbg.
  rewrite py_floordiv_nonzero by assumption. rewrite Hgrid.
  rewrite pixel_rows_of_spec; [reflexivity|exact Hcs|].
  apply (coarse_grid_Forall cfg bg palette is_colour r1 r2); try assumption.
  exact (proj1 (Forall_forall _ _) Hcol bg Hbgmem).
Qed.

End Run.

(** ** Shape and content of the coarse grid *)

Section GridShape.
Context {RS : RandomSource}.

Lemma coarse_grid_dimensions (cfg : PixelArtConfig) (bg : colour)
    (palette : list colour) (r r' : Random) (grid : list (list colour)) :
  palette <> [] ->
  coarse_grid cfg bg palette r = Ok (grid, r') ->
  length grid = range_len (grid_cells cfg) /\
  Forall (fun row => length row = row_width cfg) grid.
Proof.
  intros Hne Hgrid.
  destruct (coarse_grid_spec cfg bg palette r Hne)
    as (cells & r2 & Hspec & Hlen & Hcells & _).
  simpl in Hspec. rewrite Hspec in Hgrid. injection Hgrid as <- _.
  set (grid0 := map _ cells).
  assert (length grid0 = range_len (grid_cells cfg)) as Hl0
    by (unfold grid0; rewrite length_map; exact Hlen).
  assert (Forall (fun row => length row = row_width cfg) grid0) as Hw0.
  { unfold grid0. apply Forall_map.
    eapply Forall_impl; [exact Hcells|]. intros cs [Hcs _]. simpl.
    unfold row_width.
    destruct (str_in (symmetry cfg) ["vertical"; "quadrant"]%string) eqn:Hvq.
    - rewrite completed_row_mirrored_length, length_map, Hcs by assumption. reflexivity.
    - rewrite completed_row_unchanged, length_map by assumption. exact Hcs. }
  destruct (str_in (symmetry cfg) ["horizontal"; "quadrant"]%string).
  - split; [rewrite mirror_rows_length; exact Hl0|apply mirror_rows_Forall; exact Hw0].
  - split; assumption.
Qed.

(** With [background_ratio = 1] no palette draw is ever made. *)
Lemma full_ratio_cells (ratio : Q) (bg : colour) (palette : list colour)
    (cs : list cell_trace) :
  (ratio == 1)%Q ->
  Forall (cell_wf ratio palette) cs ->
  Forall (eq bg) (map (cell_colour bg palette) cs).
Proof.
  intros Hratio Hcs. apply Forall_map.
  eapply Forall_impl; [exact Hcs|]. intros c (_ & Hlt & Hiff & _). simpl.
  unfold cell_colour. rewrite (proj2 Hiff); [reflexivity|].
  rewrite Hratio. exact Hlt.
Qed.

(** C2, evaluated on the code: under the vertical and quadrant modes a row
    of the coarse grid is completed from the first half of the generated
    half-row, so it has [2 * ((grid_cells // 2) // 2)] cells, fewer than
    [grid_cells]; its column [grid_cells - 1] does not exist and cannot
    equal column 0. *)
Theorem mirrored_rows_truncated (cfg : PixelArtConfig) (bg : colour)
    (palette : list colour) (r : Random) :
  __post_init__ cfg = Ok tt -> palette <> [] -> 0 < grid_cells cfg ->
  str_in (symmetry cfg) ["vertical"; "quadrant"]%string = true ->
  exists grid r',
    coarse_grid cfg bg palette r = Ok (grid, r') /\
    length grid = Z.to_nat (grid_cells cfg) /\
    Forall (fun row =>
              length row = (2 * (Z.to_nat (grid_cells cfg / 2) / 2))%nat /\
              Z.of_nat (length row) < grid_cells cfg /\
              row !! Z.to_nat (grid_cells cfg - 1) = None) grid.
Proof.
  intros Hvalid Hne Hpos Hvq.
  destruct (coarse_grid_spec cfg bg palette r Hne) as (cells & r' & Hspec & _).
  simpl in Hspec. eexists _, r'. split; [exact Hspec|].
  destruct (coarse_grid_dimensions cfg bg palette r r' _ Hne Hspec) as [Hlen Hw].
  split; [exact Hlen|].
  eapply Forall_impl; [exact Hw|]. intros row Hrow. simpl in Hrow.
  unfold row_width, generated_columns, range_len in Hrow. rewrite Hvq in Hrow.
  assert (Z.of_nat (length row) < grid_cells cfg) as Hshort.
  { rewrite Hrow.
    pose proof (Nat.Div0.mul_div_le (Z.to_nat (grid_cells cfg / 2)) 2).
    assert (grid_cells cfg / 2 < grid_cells cfg) by (apply Z.div_lt; lia).
    assert (0 <= grid_cells cfg / 2) by (apply Z.div_pos; lia).
    lia. }
  split; [exact Hrow|]. split; [exact Hshort|].
  apply lookup_ge_None. lia.
Qed.

End GridShape.

Section RowMirror.
Context {RS : RandomSource}.

(** The part of the symmetry invariant that the code does establish: under
    the horizontal and quadrant modes, row [i] and row [grid_cells - 1 - i]
    of the coarse grid are the same row. *)
Lemma horizontal_rows_symmetric (cfg : PixelArtConfig) (bg : colour)
    (palette : list colour) (r r' : Random) (grid : list (list colour)) (i : nat) :
  palette <> [] ->
  str_in (symmetry cfg) ["horizontal"; "quadrant"]%string = true ->
  coarse_grid cfg bg palette r = Ok (grid, r') ->
  (i < length grid)%nat ->
  length grid = Z.to_nat (grid_cells cfg) /\
  grid !! i = grid !! (length grid - 1 - i)%nat.
Proof.
  intros Hne Hhq Hgrid Hi.
  destruct (coarse_grid_dimensions cfg bg palette r r' grid Hne Hgrid) as [Hlen _].
  split; [exact Hlen|].
  destruct (coarse_grid_spec cfg bg palette r Hne) as (cells & r2 & Hspec & _).
  simpl in Hspec. rewrite Hspec, Hhq in Hgrid. injection Hgrid as <- _.
  rewrite mirror_rows_length in *. apply mirror_rows_symmetric. exact Hi.
Qed.

End RowMirror.

(** ** The written file *)

Section Output.
Context {RS : RandomSource} {ZL : Zlib}.

(** A run that renders and whose [size] fits the header fields writes the
    signature, the header chunk, and then the rest of the stream. *)
Lemma generate_spec (entropy : rng_state) (existing : option bytes)
    (cfg : PixelArtConfig) (seed : option Z) :
  __post_init__ cfg = Ok tt -> palette_index_ok cfg -> 0 <= size cfg < 2 ^ 32 ->
  exists rows r' c1 st rest,
    render cfg (Random_init entropy seed) = Ok (rows, r') /\
    generate_pixel_art entropy existing (Some cfg) seed =
      (st, Some (png_signature ++ c1 ++ rest)) /\
    _png_chunk IHDR (be32 (size cfg) ++ be32 (size cfg) ++ [8; 2; 0; 0; 0]) = Ok c1 /\
    (Z.of_nat (length (compress (filtered rows))) < 2 ^ 32 ->
     exists c2 c3,
       st = Ok tt /\ rest = c2 ++ c3 /\
       _png_chunk IDAT (compress (filtered rows)) = Ok c2 /\
       _png_chunk IEND [] = Ok c3).
Proof.
  intros Hvalid Hidx Hsize.
  destruct (render_spec cfg (Random_init entropy seed) Hvalid Hidx ltac:(lia))
    as (palette & bg & r1 & grid & r2 & _ & _ & _ & _ & _ & Hrender).
  destruct (write_png_spec (size cfg) (size cfg)
              (pixel_matrix (size cfg / grid_cells cfg) grid) existing Hsize Hsize)
    as (c1 & st & rest & Hwrite & Hc1 & Hrest).
  eexists _, r2, c1, st, rest.
  split; [exact Hrender|].
  split; [|split; [exact Hc1|exact Hrest]].
  unfold generate_pixel_art. simpl. rewrite Hrender. exact Hwrite.
Qed.

(** C8: the payload of the header chunk is [size] on four big-endian bytes,
    [size] again on four big-endian bytes, then the bytes 8, 2, 0, 0, 0; it
    is framed under the tag [IHDR] right after the signature. *)
Theorem header_chunk_payload (entropy : rng_state) (existing : option bytes)
    (cfg : PixelArtConfig) (seed : option Z) :
  __post_init__ cfg = Ok tt -> palette_index_ok cfg -> 0 <= size cfg < 2 ^ 32 ->
  exists payload st rest,
    generate_pixel_art entropy existing (Some cfg) seed =
      (st, Some (png_signature
                 ++ (be32 13 ++ IHDR ++ payload ++ be32 (crc32 (IHDR ++ payload)))
                 ++ rest)) /\
    payload = be32 (size cfg) ++ be32 (size cfg) ++ [8; 2; 0; 0; 0] /\
    length (be32 (size cfg)) = 4%nat /\
    Forall is_byte (be32 (size cfg)) /\
    unpack_be (be32 (size cfg)) = size cfg.
Proof.
  intros Hvalid Hidx Hsize.
  destruct (generate_spec entropy existing cfg seed Hvalid Hidx Hsize)
    as (rows & r' & c1 & st & rest & _ & Hgen & Hc1 & _).
  set (payload := be32 (size cfg) ++ be32 (size cfg) ++ [8; 2; 0; 0; 0]) in *.
  pose proof (png_chunk_in_range IHDR payload ltac:(simpl; lia)) as Hframe.
  rewrite Hc1 in Hframe. injection Hframe as ->.
  exists payload, st, rest. split; [exact Hgen|]. split; [reflexivity|].
  split; [reflexivity|]. split; [|apply unpack_be32; exact Hsize].
  unfold be32, is_byte. repeat constructor; apply Z.mod_pos_bound; lia.
Qed.

(** C1: with a seed, the outcome of a run and the bytes it leaves in the
    file do not depend on the environment of the invocation: neither on the
    entropy available to an unseeded generator nor, for a configuration that
    renders, on what the file held before. *)
Theorem seeded_runs_identical (config : option PixelArtConfig) (seed : Z)
    (entropy1 entropy2 : rng_state) (existing1 existing2 : option bytes) :
  generate_pixel_art entropy1 existing1 config (Some seed) =
    generate_pixel_art entropy2 existing1 config (Some seed) /\
  (__post_init__ (default default_config config) = Ok tt ->
   palette_index_ok (default default_config config) ->
   0 <= size (default default_config config) < 2 ^ 32 ->
   exists st out,
     generate_pixel_art entropy1 existing1 config (Some seed) = (st, Some out) /\
     generate_pixel_art entropy2 existing2 config (Some seed) = (st, Some out)).
Proof.
  split; [reflexivity|]. intros Hvalid Hidx Hsize.
  set (cfg := default default_config config) in *.
  assert (forall entropy existing,
             generate_pixel_art entropy existing config (Some seed) =
             generate_pixel_art entropy existing (Some cfg) (Some seed)) as Hcfg
    by reflexivity.
  rewrite !Hcfg.
  destruct (render_spec cfg (Random_init entropy1 (Some seed)) Hvalid Hidx ltac:(lia))
    as (palette & bg & r1 & grid & r2 & _ & _ & _ & _ & _ & Hrender).
  destruct (write_png_spec (size cfg) (size cfg)
              (pixel_matrix (size cfg / grid_cells cfg) grid) existing1 Hsize Hsize)
    as (c1 & st & rest & Hwrite & _ & _).
  exists st, (png_signature ++ c1 ++ rest).
  assert (forall existing,
             generate_pixel_art entropy2 existing (Some cfg) (Some seed) =
             generate_pixel_art entropy1 existing (Some cfg) (Some seed)) as Hent
    by reflexivity.
  rewrite Hent.
  assert (forall existing,
             generate_pixel_art entropy1 existing (Some cfg) (Some seed) =
             _write_png (size cfg) (size cfg)
               (pixel_matrix (size cfg / grid_cells cfg) grid) existing) as Hrun.
  { intros existing. unfold generate_pixel_art. simpl. fold cfg.
    rewrite Hrender. reflexivity. }
  rewrite !Hrun. split; [exact Hwrite|].
  rewrite <- Hwrite. apply write_png_truncates; exact Hsize.
Qed.

End Output.

(** ** The pixel-data stream *)




Lemma unfilter_filtered (w : nat) (rows : list bytes) :
  Forall (fun row => length row = w) rows ->
  unfilter (length rows) w (filtered rows) = Some rows.
Proof.
  intros Hrows. unfold filtered.
  induction Hrows as [|row rows Hrow _ IH]; simpl; [reflexivity|].
  destruct (decide _) as [_|Hn]; [|rewrite length_app in Hn; lia].
  subst w. rewrite drop_app_length, take_app_length, IH. reflexivity.
Qed.

Lemma row_pixels_bytes (cell_size : Z) (row : list colour) :
  Forall is_colour row -> Forall is_byte (row_pixels cell_size row).
Proof.
  intros Hrow. unfold row_pixels. apply Forall_concat, Forall_map.
  eapply Forall_impl; [exact Hrow|]. intros c Hc. simpl.
  apply Forall_concat, Forall_replicate. exact Hc.
Qed.

Lemma filtered_bytes (cell_size : Z) (grid : list (list colour)) :
  Forall (Forall is_colour) grid ->
  Forall is_byte (filtered (pixel_matrix cell_size grid)).
Proof.
  intros Hgrid. unfold filtered, pixel_matrix.
  apply Forall_concat, Forall_map, Forall_concat, Forall_map.
  eapply Forall_impl; [exact Hgrid|]. intros row Hrow. simpl.
  apply Forall_replicate. constructor; [unfold is_byte; lia|].
  apply row_pixels_bytes, Hrow.
Qed.

Section PixelData.
Context {RS : RandomSource} {ZL : Zlib}.

(** The pixel-data chunk of a run: its payload decompresses to the filtered
    rows, and removing the filter bytes gives back the pixel rows, whose
    width is three bytes per pixel of the coarse rows the code built. *)
Lemma idat_roundtrip (entropy : rng_state) (existing : option bytes)
    (cfg : PixelArtConfig) (seed : option Z) :
  __post_init__ cfg = Ok tt -> palette_index_ok cfg -> 0 <= size cfg < 2 ^ 32 ->
  exists grid r' st c1 rest,
    let cell_size := size cfg / grid_cells cfg in
    let rows := pixel_matrix cell_size grid in
    let payload := compress (filtered rows) in
    render cfg (Random_init entropy seed) = Ok (rows, r') /\
    length grid = range_len (grid_cells cfg) /\
    Forall (fun row => length row = row_width cfg) grid /\
    generate_pixel_art entropy existing (Some cfg) seed =
      (st, Some (png_signature ++ c1 ++ rest)) /\
    (Z.of_nat (length payload) < 2 ^ 32 ->
     exists c3,
       st = Ok tt /\
       rest = (be32 (Z.of_nat (length payload)) ++ IDAT ++ payload
               ++ be32 (crc32 (IDAT ++ payload))) ++ c3) /\
    decompress payload = Some (filtered rows) /\
    unfilter (length rows) (3 * (row_width cfg * range_len cell_size)) (filtered rows)
      = Some rows.
Proof.
  intros Hvalid Hidx Hsize.
  destruct (render_spec cfg (Random_init entropy seed) Hvalid Hidx ltac:(lia))
    as (palette & bg & r1 & grid & r2 & _ & Hmem & _ & Hbgmem & Hgrid & Hrender).
  pose proof (proj1 (Forall_forall _ _) palettes_wellformed palette Hmem) as [Hne Hcol].
  destruct (coarse_grid_dimensions cfg bg palette r1 r2 grid Hne Hgrid) as [Hlen Hw].
  assert (Forall (Forall is_colour) grid) as Hbytes.
  { apply (coarse_grid_Forall cfg bg palette is_colour r1 r2); try assumption.
    exact (proj1 (Forall_forall _ _) Hcol bg Hbgmem). }
  destruct (generate_spec entropy existing cfg seed Hvalid Hidx Hsize)
    as (rows & r' & c1 & st & rest & Hrender' & Hgen & _ & Hrest).
  rewrite Hrender in Hrender'. injection Hrender' as <- <-.
  exists grid, r2, st, c1, rest. simpl.
  split; [exact Hrender|]. split; [exact Hlen|]. split; [exact Hw|].
  split; [exact Hgen|]. split; [|split].
  - intros Hlt. destruct (Hrest Hlt) as (c2 & c3 & Hst & -> & Hc2 & _).
    rewrite png_chunk_in_range in Hc2 by exact Hlt. injection Hc2 as <-.
    exists c3. split; [exact Hst|reflexivity].
  - apply decompress_compress, filtered_bytes, Hbytes.
  - apply unfilter_filtered, pixel_matrix_rows, Hw.
Qed.

Lemma exact_cells (cfg : PixelArtConfig) :
  __post_init__ cfg = Ok tt -> 0 < grid_cells cfg -> 0 < size cfg ->
  0 < size cfg / grid_cells cfg /\
  grid_cells cfg * (size cfg / grid_cells cfg) = size cfg.
Proof.
  intros Hvalid Hgc Hsize.
  destruct (post_init_Ok cfg Hvalid) as (Hnz & Hmod & _).
  pose proof (proj2 (Z.div_exact (size cfg) (grid_cells cfg) Hnz) Hmod) as Hex.
  split; [|lia].
  assert (0 <= size cfg / grid_cells cfg) by (apply Z.div_pos; lia). nia.
Qed.

(** C4, evaluated on the code: under the vertical and quadrant modes the
    image has [size] pixel rows, but each of them is shorter than [3 * size]
    bytes, because the coarse rows have fewer than [grid_cells] cells. *)
Theorem mirrored_pixel_rows_short (entropy : rng_state) (existing : option bytes)
    (cfg : PixelArtConfig) (seed : option Z) :
  __post_init__ cfg = Ok tt -> palette_index_ok cfg ->
  0 < grid_cells cfg -> 0 < size cfg < 2 ^ 32 ->
  str_in (symmetry cfg) ["vertical"; "quadrant"]%string = true ->
  exists rows r' st c1 rest w,
    render cfg (Random_init entropy seed) = Ok (rows, r') /\
    generate_pixel_art entropy existing (Some cfg) seed =
      (st, Some (png_signature ++ c1 ++ rest)) /\
    (Z.of_nat (length (compress (filtered rows))) < 2 ^ 32 ->
     exists c3,
       st = Ok tt /\
       rest = (be32 (Z.of_nat (length (compress (filtered rows)))) ++ IDAT
               ++ compress (filtered rows)
               ++ be32 (crc32 (IDAT ++ compress (filtered rows)))) ++ c3) /\
    decompress (compress (filtered rows)) = Some (filtered rows) /\
    unfilter (length rows) w (filtered rows) = Some rows /\
    Z.of_nat (length rows) = size cfg /\
    Forall (fun row => length row = w) rows /\
    Z.of_nat w =
      3 * (2 * (grid_cells cfg / 2 / 2)) * (size cfg / grid_cells cfg) /\
    Z.of_nat w < 3 * size cfg.
Proof.
  intros Hvalid Hidx Hgc Hsize Hvq.
  destruct (idat_roundtrip entropy existing cfg seed Hvalid Hidx ltac:(lia))
    as (grid & r' & st & c1 & rest & Hrender & Hlen & Hw & Hgen & Hrest & Hdec & Hunf).
  cbv zeta in *.
  destruct (exact_cells cfg Hvalid Hgc ltac:(lia)) as [Hcs Hexact].
  set (cs := size cfg / grid_cells cfg) in *.
  assert (0 <= grid_cells cfg / 2 < grid_cells cfg) as Hhalf
    by (split; [apply Z.div_pos; lia|apply Z.div_lt; lia]).
  assert (Z.of_nat (row_width cfg) = 2 * (grid_cells cfg / 2 / 2)) as Hrw.
  { unfold row_width, generated_columns, range_len. rewrite Hvq.
    rewrite Nat2Z.inj_mul, Nat2Z.inj_div, Z2Nat.id by lia. reflexivity. }
  assert (2 * (grid_cells cfg / 2 / 2) <= grid_cells cfg / 2) as Hquarter.
  { pose proof (Z.mul_div_le (grid_cells cfg / 2) 2 ltac:(lia)). lia. }
  exists (pixel_matrix cs grid), r', st, c1, rest,
         (3 * (row_width cfg * range_len cs))%nat.
  split; [exact Hrender|]. split; [exact Hgen|]. split; [exact Hrest|].
  split; [exact Hdec|]. split; [exact Hunf|].
  split; [rewrite pixel_matrix_length, Hlen; unfold range_len;
          rewrite Nat2Z.inj_mul, !Z2Nat.id by lia; exact Hexact|].
  split; [apply pixel_matrix_rows, Hw|].
  assert (Z.of_nat (3 * (row_width cfg * range_len cs)) =
          3 * (2 * (grid_cells cfg / 2 / 2)) * cs) as Heq.
  { unfold range_len.
    rewrite Nat2Z.inj_mul, Nat2Z.inj_mul, Hrw, Z2Nat.id by lia. simpl. lia. }
  split; [exact Heq|]. rewrite Heq. nia.
Qed.


End PixelData.

(** ** The theorems at concrete inputs

    Evaluated with the linear congruential generator and the storing codec. *)


Lemma mirrored_rows_truncated_witness :
  __post_init__ scenario_config = Ok tt /\
  exists grid r',
    coarse_grid scenario_config (26, 28, 44) palette0 (lcg_rng 42) =
      Ok (grid, r') /\
    length grid = 16%nat /\
    Forall (fun row => length row = 8%nat /\ row !! 15%nat = None) grid.
Proof.
  split; [reflexivity|].
  destruct (mirrored_rows_truncated scenario_config (26, 28, 44) palette0
              (lcg_rng 42) ltac:(reflexivity) ltac:(discriminate)
              ltac:(reflexivity) ltac:(reflexivity))
    as (grid & r' & Hgrid & Hlen & Hrows).
  exists grid, r'. split; [exact Hgrid|]. split; [exact Hlen|].
  eapply Forall_impl; [exact Hrows|]. intros row (Hl & _ & Hnone).
  split; [exact Hl|exact Hnone].
Defined.

Lemma header_chunk_payload_witness :
  __post_init__ scenario_config = Ok tt /\
  palette_index_ok scenario_config /\
  0 <= size scenario_config < 2 ^ 32 /\
  exists st rest,
    generate_pixel_art (RS := lcg_source) 0 None (Some scenario_config) (Some 42) =
      (st, Some (png_signature
                 ++ ([0; 0; 0; 13] ++ IHDR ++ [0; 0; 0; 128; 0; 0; 0; 128; 8; 2; 0; 0; 0]
                     ++ be32 (crc32 (IHDR ++ [0; 0; 0; 128; 0; 0; 0; 128; 8; 2; 0; 0; 0])))
                 ++ rest)).
Proof.
  split; [reflexivity|]. split; [unfold palette_index_ok; simpl; lia|].
  split; [simpl; lia|].
  destruct (header_chunk_payload (RS := lcg_source) 0 None scenario_config (Some 42)
              ltac:(reflexivity) ltac:(unfold palette_index_ok; simpl; lia)
              ltac:(simpl; lia))
    as (payload & st & rest & Hgen & -> & _).
  exists st, rest. exact Hgen.
Defined.

Lemma seeded_runs_identical_witness :
  __post_init__ scenario_config = Ok tt /\
  palette_index_ok scenario_config /\
  0 <= size scenario_config < 2 ^ 32 /\
  exists st out,
    generate_pixel_art (RS := lcg_source) 1 None (Some scenario_config) (Some 42) = (st, Some out) /\
    generate_pixel_art (RS := lcg_source) 2 (Some [1; 2; 3]) (Some scenario_config) (Some 42) = (st, Some out).
Proof.
  split; [reflexivity|]. split; [unfold palette_index_ok; simpl; lia|].
  split; [simpl; lia|].
  exact (proj2 (seeded_runs_identical (RS := lcg_source) (Some scenario_config) 42 1 2 None (Some [1; 2; 3]))
               ltac:(reflexivity) ltac:(unfold palette_index_ok; simpl; lia)
               ltac:(simpl; lia)).
Defined.

Lemma mirrored_pixel_rows_short_witness :
  __post_init__ scenario_config = Ok tt /\
  palette_index_ok scenario_config /\
  exists rows r',
    render scenario_config (lcg_rng 42) = Ok (rows, r') /\
    length rows = 128%nat /\
    Forall (fun row => length row = 192%nat) rows /\
    unfilter 128 192 (filtered rows) = Some rows.
Proof.
  split; [reflexivity|]. split; [unfold palette_index_ok; simpl; lia|].
  destruct (mirrored_pixel_rows_short (RS := lcg_source) 0 None scenario_config (Some 42)
              ltac:(reflexivity) ltac:(unfold palette_index_ok; simpl; lia)
              ltac:(reflexivity) ltac:(simpl; lia) ltac:(reflexivity))
    as (rows & r' & st & c1 & rest & w & Hr & _ & _ & _ & Hunf & Hn & Hrows & Hw & _).
  change (3 * (2 * (grid_cells scenario_config / 2 / 2))
          * (size scenario_config / grid_cells scenario_config)) with 192 in Hw.
  change (size scenario_config) with 128 in Hn.
  assert (w = 192%nat) as -> by lia.
  assert (length rows = 128%nat) as Hn' by lia.
  rewrite Hn' in Hunf.
  exists rows, r'. repeat split; assumption.
Defined.

(** Without a seed the output does depend on the entropy read. *)
Example unseeded_runs_differ :
  generate_pixel_art (RS := lcg_source) 1 None (Some quadrant_full_config) None =
    generate_pixel_art (RS := lcg_source) 2 None (Some quadrant_full_config) None /\
  generate_pixel_art (RS := lcg_source) 1 None
    (Some {| size := 4; grid_cells := 2; symmetry := "none";
             palette_index := Some 0; background_ratio := 45 # 100 |}) None <>
  generate_pixel_art (RS := lcg_source) 2 None
    (Some {| size := 4; grid_cells := 2; symmetry := "none";
             palette_index := Some 0; background_ratio := 45 # 100 |}) None.
Proof. split; [vm_compute; reflexivity|vm_compute; discriminate]. Qed.

(** * Further properties of the module *)

(** ** Validation *)

Lemma str_in_In (s : string) (l : list string) : str_in s l = true <-> In s l.
Proof.
  unfold str_in. rewrite existsb_exists. split.
  - intros (x & Hx & Heq). apply String.eqb_eq in Heq. subst x. exact Hx.
  - intros Hin. exists s. split; [exact Hin|apply String.eqb_refl].
Qed.

(** X1: [__post_init__] accepts a configuration exactly when [grid_cells]
    is not zero and divides [size], the symmetry is one of the four names,
    the ratio lies in [0, 1], and [grid_cells] is even under the three
    mirrored modes; a zero [grid_cells] ends in [ZeroDivisionError], every
    other refusal in [ValueError]. *)
Theorem post_init_outcomes (cfg : PixelArtConfig) :
  (__post_init__ cfg = Ok tt <->
   grid_cells cfg <> 0 /\ size cfg mod grid_cells cfg = 0 /\
   In (symmetry cfg) ["none"; "vertical"; "horizontal"; "quadrant"]%string /\
   (0 <= background_ratio cfg)%Q /\ (background_ratio cfg <= 1)%Q /\
   (In (symmetry cfg) ["vertical"; "horizontal"; "quadrant"]%string ->
    grid_cells cfg mod 2 = 0)) /\
  (grid_cells cfg = 0 -> __post_init__ cfg = Raise ZeroDivisionError) /\
  (grid_cells cfg <> 0 ->
   __post_init__ cfg = Ok tt \/ __post_init__ cfg = Raise ValueError).
Proof.
  split; [|split].
  - rewrite <- !str_in_In. split.
    + intros H. destruct (post_init_Ok cfg H) as (? & ? & ? & ? & ? & ?).
      repeat split; assumption.
    + intros (? & ? & ? & ? & ? & ?). apply post_init_accepts; assumption.
  - intros Hz. unfold __post_init__, py_mod. rewrite Hz. reflexivity.
  - intros Hnz. unfold __post_init__. rewrite py_mod_nonzero by assumption.
    remember (str_in (symmetry cfg) ["none"; "vertical"; "horizontal"; "quadrant"]%string)
      as known.
    remember (Qle_bool 0 (background_ratio cfg) && Qle_bool (background_ratio cfg) 1)
      as in_range.
    remember (str_in (symmetry cfg) ["vertical"; "horizontal"; "quadrant"]%string
              && negb (grid_cells cfg mod 2 =? 0)) as odd.
    simpl.
    destruct (size cfg mod grid_cells cfg =? 0); [|right; reflexivity].
    destruct known; [|right; reflexivity].
    destruct in_range; [|right; reflexivity].
    destruct odd; [right|left]; reflexivity.
Qed.

Lemma post_init_outcomes_witness :
  __post_init__ {| size := 9; grid_cells := 3; symmetry := "none";
                   palette_index := None; background_ratio := 1 # 2 |} = Ok tt /\
  __post_init__ {| size := 9; grid_cells := 0; symmetry := "none";
                   palette_index := None; background_ratio := 1 # 2 |}
    = Raise ZeroDivisionError.
Proof.
  split.
  - apply (proj1 (post_init_outcomes _)). simpl.
    split; [discriminate|]. split; [reflexivity|]. split; [left; reflexivity|].
    split; [discriminate|]. split; [discriminate|].
    intros [H|[H|[H|[]]]]; discriminate H.
  - apply (proj1 (proj2 (post_init_outcomes _))). reflexivity.
Defined.

(** ** Palette selection *)

Section PaletteDraws.
Context {RS : RandomSource}.

(** X2: an explicit index from 0 to 4 returns that entry of the table and
    leaves the generator object as it was: no draw is made. *)
Theorem choose_palette_explicit (i : Z) (r : Random) :
  0 <= i < 5 ->
  exists p, PALETTES !! Z.to_nat i = Some p /\ _choose_palette (Some i) r = Ok (p, r).
Proof. apply choose_palette_in_range. Qed.

(** X3: an explicit index of 5 or more, or below -5, is refused with
    [ValueError]. *)
Theorem choose_palette_refused (i : Z) (r : Random) :
  i < -5 \/ 5 <= i -> _choose_palette (Some i) r = Raise ValueError.
Proof. apply choose_palette_out_of_range. Qed.

(** X4: without an index exactly one call is made on the generator, a
    choice among the five palettes; the palette returned is the table entry
    at the position that [_randbelow(5)] gave, and the generator moves to
    the state after that call. *)
Theorem choose_palette_one_draw (r : Random) :
  exists p,
    PALETTES !! fst (rng_randbelow 5 (rng_gen r)) = Some p /\
    (fst (rng_randbelow 5 (rng_gen r)) < 5)%nat /\
    _choose_palette None r =
      Ok (p, {| rng_gen := snd (rng_randbelow 5 (rng_gen r));
                rng_log := rng_log r
                           ++ [DrawChoice 5 (fst (rng_randbelow 5 (rng_gen r)))] |}).
Proof.
  unfold _choose_palette, choice. change (length PALETTES) with 5%nat. simpl.
  pose proof (rng_randbelow_lt 5 (rng_gen r) ltac:(lia)) as Hlt.
  destruct (rng_randbelow 5 (rng_gen r)) as [i g]. simpl in *.
  destruct (PALETTES !! i) as [p|] eqn:Hp.
  - exists p. repeat split. exact Hlt.
  - apply lookup_ge_None in Hp. simpl in Hp. lia.
Qed.

End PaletteDraws.

Lemma choose_palette_explicit_witness :
  0 <= 3 < 5 /\
  exists p, PALETTES !! Z.to_nat 3 = Some p /\
            _choose_palette (Some 3) (lcg_rng 1) = Ok (p, lcg_rng 1).
Proof. split; [lia|]. apply (choose_palette_explicit 3 (lcg_rng 1)). lia. Defined.

Lemma choose_palette_refused_witness :
  (7 < -5 \/ 5 <= 7) /\ _choose_palette (Some 7) (lcg_rng 1) = Raise ValueError.
Proof.
  split; [right; lia|]. apply (choose_palette_refused 7 (lcg_rng 1)). right. lia.
Defined.

(** ** The two mirrors *)

(** X5: the vertical completion of a row is a palindrome of
    [2 * (len(row) // 2)] cells that starts with the first half of the row;
    completing it again changes nothing, and ["quadrant"] completes a row in
    the same way. *)
Theorem apply_symmetry_row_palindrome (row : list colour) :
  let out := _apply_symmetry_row row "vertical" in
  reverse out = out /\
  length out = (2 * (length row / 2))%nat /\
  take (length row / 2) out = take (length row / 2) row /\
  _apply_symmetry_row out "vertical" = out /\
  _apply_symmetry_row row "quadrant" = out.
Proof.
  cbv zeta. rewrite !apply_symmetry_row_vertical.
  pose proof (Nat.Div0.mul_div_le (length row) 2) as Hh.
  set (h := (length row / 2)%nat) in *. set (m := take h row).
  assert (length m = h) as Hm by (unfold m; rewrite length_take; lia).
  assert (length (m ++ reverse m) = (2 * h)%nat) as Hlen
    by (rewrite length_app, length_reverse; lia).
  assert (take h (m ++ reverse m) = m) as Htake
    by (rewrite <- Hm at 1; apply take_app_length).
  split; [rewrite reverse_app, reverse_involutive; reflexivity|].
  split; [exact Hlen|]. split; [exact Htake|]. split; [|reflexivity].
  rewrite Hlen. replace (2 * h / 2)%nat with h
    by (rewrite Nat.mul_comm, Nat.div_mul; lia).
  rewrite Htake. reflexivity.
Qed.

Lemma mirror_rows_kept {A} (grid : list A) (i : nat) :
  (i < length grid - length grid / 2)%nat -> mirror_rows grid !! i = grid !! i.
Proof.
  intros Hi. unfold mirror_rows.
  rewrite lookup_app_l by (rewrite length_take; lia).
  apply lookup_take_lt. exact Hi.
Qed.

Lemma mirror_rows_idempotent {A} (grid : list A) :
  mirror_rows (mirror_rows grid) = mirror_rows grid.
Proof.
  pose proof (Nat.Div0.mul_div_le (length grid) 2) as Hh.
  assert (length (mirror_rows grid) = length grid) as Hlen.
  { unfold mirror_rows. rewrite length_app, length_reverse, !length_take. lia. }
  unfold mirror_rows at 1. rewrite Hlen. unfold mirror_rows.
  set (h := (length grid / 2)%nat) in *.
  assert (length (take (length grid - h) grid) = (length grid - h)%nat) as Hup
    by (rewrite length_take; lia).
  rewrite <- Hup at 1. rewrite take_app_length.
  rewrite take_app_le by lia. rewrite take_take.
  replace (h `min` (length grid - h))%nat with h by lia. reflexivity.
Qed.

(** X6: [_mirror_grid_horizontally] never raises and keeps the number of
    rows; the rows above the centre, the middle row of an odd grid
    included, stay as they were, and afterwards row [i] and row
    [len - 1 - i] are the same row for every [i]. *)
Theorem mirror_grid_symmetric (grid : list (list colour)) :
  exists out,
    _mirror_grid_horizontally grid = Ok out /\
    length out = length grid /\
    (forall i, (i < length grid - length grid / 2)%nat -> out !! i = grid !! i) /\
    (forall i, (i < length grid)%nat -> out !! i = out !! (length grid - 1 - i)%nat).
Proof.
  exists (mirror_rows grid).
  split; [apply mirror_grid_horizontally_spec|].
  split; [apply mirror_rows_length|].
  split; [apply mirror_rows_kept|apply mirror_rows_symmetric].
Qed.

(** X7: mirroring a grid that has been mirrored changes nothing. *)
Theorem mirror_grid_idempotent (grid out : list (list colour)) :
  _mirror_grid_horizontally grid = Ok out ->
  _mirror_grid_horizontally out = Ok out.
Proof.
  rewrite mirror_grid_horizontally_spec. intros [= <-].
  rewrite mirror_grid_horizontally_spec, mirror_rows_idempotent. reflexivity.
Qed.

Lemma mirror_grid_symmetric_witness :
  exists out,
    _mirror_grid_horizontally [[(1, 1, 1)]; [(2, 2, 2)]; [(3, 3, 3)]] = Ok out /\
    out !! 1%nat = Some [(2, 2, 2)] /\
    out !! 0%nat = out !! 2%nat.
Proof.
  destruct (mirror_grid_symmetric [[(1, 1, 1)]; [(2, 2, 2)]; [(3, 3, 3)]])
    as (out & Hout & _ & Hkept & Hsym).
  exists out. split; [exact Hout|]. split.
  - apply (Hkept 1%nat). simpl. lia.
  - apply (Hsym 0%nat). simpl. lia.
Defined.

Lemma mirror_grid_idempotent_witness :
  _mirror_grid_horizontally [[(1, 1, 1)]; [(2, 2, 2)]; [(3, 3, 3)]]
    = Ok [[(1, 1, 1)]; [(2, 2, 2)]; [(1, 1, 1)]] /\
  _mirror_grid_horizontally [[(1, 1, 1)]; [(2, 2, 2)]; [(1, 1, 1)]]
    = Ok [[(1, 1, 1)]; [(2, 2, 2)]; [(1, 1, 1)]].
Proof.
  split; [reflexivity|].
  apply (mirror_grid_idempotent [[(1, 1, 1)]; [(2, 2, 2)]; [(3, 3, 3)]]). reflexivity.
Defined.

(** ** Runs of the grid synthesis *)

Lemma concat_length_bounds {A B} (f : A -> list B) (lo hi : nat) (l : list A) :
  Forall (fun x => (lo <= length (f x) <= hi)%nat) l ->
  (lo * length l <= length (concat (map f l)) <= hi * length l)%nat.
Proof.
  induction 1 as [|x l Hx _ IH]; simpl; [lia|].
  rewrite length_app. lia.
Qed.

Section GridRuns.
Context {RS : RandomSource}.

(** X8: under the horizontal and quadrant modes the coarse grid has
    [grid_cells] rows, and row [i] and row [grid_cells - 1 - i] are the same
    row for every [i]. *)
Theorem coarse_grid_rows_mirrored (cfg : PixelArtConfig) (bg : colour)
    (palette : list colour) (r : Random) :
  palette <> [] ->
  In (symmetry cfg) ["horizontal"; "quadrant"]%string ->
  exists grid r',
    coarse_grid cfg bg palette r = Ok (grid, r') /\
    length grid = Z.to_nat (grid_cells cfg) /\
    forall i, (i < length grid)%nat ->
      grid !! i = grid !! (length grid - 1 - i)%nat.
Proof.
  intros Hne Hhq. apply str_in_In in Hhq.
  destruct (coarse_grid_spec cfg bg palette r Hne) as (cells & r' & Hspec & _).
  cbv zeta in Hspec. eexists _, r'. split; [exact Hspec|].
  split.
  - exact (proj1 (coarse_grid_dimensions cfg bg palette r r' _ Hne Hspec)).
  - intros i Hi.
    exact (proj2 (horizontal_rows_symmetric cfg bg palette r r' _ i Hne Hhq Hspec Hi)).
Qed.

(** X9: under the vertical and quadrant modes every row of the coarse grid
    reads the same from the left and from the right. *)
Theorem coarse_grid_rows_palindromes (cfg : PixelArtConfig) (bg : colour)
    (palette : list colour) (r : Random) :
  palette <> [] ->
  In (symmetry cfg) ["vertical"; "quadrant"]%string ->
  exists grid r',
    coarse_grid cfg bg palette r = Ok (grid, r') /\
    Forall (fun row => reverse row = row) grid.
Proof.
  intros Hne Hvq. apply str_in_In in Hvq.
  destruct (coarse_grid_spec cfg bg palette r Hne) as (cells & r' & Hspec & _).
  cbv zeta in Hspec. eexists _, r'. split; [exact Hspec|].
  assert (Forall (fun row : list colour => reverse row = row)
            (map (fun cs => completed_row cfg (map (cell_colour bg palette) cs)) cells))
    as H0.
  { apply Forall_map, Forall_forall. intros cs _. simpl.
    rewrite completed_row_mirrored by exact Hvq.
    rewrite reverse_app, reverse_involutive. reflexivity. }
  destruct (str_in (symmetry cfg) ["horizontal"; "quadrant"]%string);
    [apply mirror_rows_Forall|]; exact H0.
Qed.

(** X10: in a run, the palette is an entry of the table, the background is
    one of its colours, and every cell of the coarse grid holds a colour of
    that palette. *)
Theorem coarse_grid_palette_closed (cfg : PixelArtConfig) (r : Random) :
  palette_index_ok cfg ->
  exists palette bg r1 grid r2,
    _choose_palette (palette_index cfg) r = Ok (palette, r1) /\
    In palette PALETTES /\
    _determine_background palette = Ok bg /\ In bg palette /\
    coarse_grid cfg bg palette r1 = Ok (grid, r2) /\
    Forall (Forall (fun c => In c palette)) grid.
Proof.
  intros Hidx.
  destruct (choose_palette_member cfg r Hidx) as (palette & r1 & Hch & Hmem).
  pose proof (proj1 (Forall_forall _ _) palettes_wellformed palette Hmem) as [Hne _].
  destruct (determine_background_member palette Hne) as (bg & Hbg & Hbgmem).
  destruct (coarse_grid_spec cfg bg palette r1 Hne) as (cells & r2 & Hgrid & _).
  cbv zeta in Hgrid.
  eexists palette, bg, r1, _, r2.
  split; [exact Hch|]. split; [apply list_elem_of_In; exact Hmem|].
  split; [exact Hbg|]. split; [apply list_elem_of_In; exact Hbgmem|].
  split; [exact Hgrid|].
  apply (coarse_grid_Forall cfg bg palette (fun c => In c palette) r1 r2 _ Hne).
  - apply list_elem_of_In. exact Hbgmem.
  - apply Forall_forall. intros c Hc. apply list_elem_of_In. exact Hc.
  - exact Hgrid.
Qed.

(** X11: building the coarse grid makes at least one and at most two calls
    on the generator per generated cell. *)
Theorem coarse_grid_call_count (cfg : PixelArtConfig) (bg : colour)
    (palette : list colour) (r : Random) :
  palette <> [] ->
  exists grid r',
    coarse_grid cfg bg palette r = Ok (grid, r') /\
    (length (rng_log r) + generated_columns cfg * Z.to_nat (grid_cells cfg)
       <= length (rng_log r')
       <= length (rng_log r) + 2 * generated_columns cfg * Z.to_nat (grid_cells cfg))%nat.
Proof.
  intros Hne.
  destruct (coarse_grid_spec cfg bg palette r Hne)
    as (cells & r' & Hspec & Hlen & Hcells & _ & Hlog).
  cbv zeta in Hspec. eexists _, r'. split; [exact Hspec|].
  rewrite Hlog, length_app. unfold range_len in Hlen. rewrite <- Hlen.
  pose proof (concat_length_bounds
                (fun cs => concat (map (cell_draws (length palette)) cs))
                (generated_columns cfg) (2 * generated_columns cfg) cells) as Hb.
  rewrite <- Nat.mul_assoc.
  enough (Forall (fun cs => (generated_columns cfg
                             <= length (concat (map (cell_draws (length palette)) cs))
                             <= 2 * generated_columns cfg)%nat) cells) as Hrows
    by (specialize (Hb Hrows); lia).
  eapply Forall_impl; [exact Hcells|]. intros cs [Hw _]. simpl.
  pose proof (concat_length_bounds (cell_draws (length palette)) 1 2 cs) as Hc.
  rewrite <- Hw.
  enough (Forall (fun c => (1 <= length (cell_draws (length palette) c) <= 2)%nat) cs)
    as Hall by (specialize (Hc Hall); lia).
  apply Forall_forall. intros c _. unfold cell_draws.
  destruct (palette_draw c); simpl; lia.
Qed.

(** X12: with a [background_ratio] of 0 (or below) no cell takes the
    background branch: every generated cell costs exactly two calls, the
    uniform real and the palette choice. *)
Theorem no_background_two_draws (cfg : PixelArtConfig) (bg : colour)
    (palette : list colour) (r : Random) :
  palette <> [] -> (background_ratio cfg <= 0)%Q ->
  exists grid r',
    coarse_grid cfg bg palette r = Ok (grid, r') /\
    length (rng_log r') =
      (length (rng_log r) + 2 * generated_columns cfg * Z.to_nat (grid_cells cfg))%nat.
Proof.
  intros Hne Hratio.
  destruct (coarse_grid_spec cfg bg palette r Hne)
    as (cells & r' & Hspec & Hlen & Hcells & _ & Hlog).
  cbv zeta in Hspec. eexists _, r'. split; [exact Hspec|].
  rewrite Hlog, length_app. unfold range_len in Hlen. rewrite <- Hlen.
  pose proof (concat_length_bounds
                (fun cs => concat (map (cell_draws (length palette)) cs))
                (2 * generated_columns cfg) (2 * generated_columns cfg) cells) as Hb.
  enough (Forall (fun cs => (2 * generated_columns cfg
                             <= length (concat (map (cell_draws (length palette)) cs))
                             <= 2 * generated_columns cfg)%nat) cells) as Hrows
    by (specialize (Hb Hrows); lia).
  eapply Forall_impl; [exact Hcells|]. intros cs [Hw Hwf]. simpl.
  pose proof (concat_length_bounds (cell_draws (length palette)) 2 2 cs) as Hc.
  rewrite <- Hw.
  enough (Forall (fun c => (2 <= length (cell_draws (length palette) c) <= 2)%nat) cs)
    as Hall by (specialize (Hc Hall); lia).
  eapply Forall_impl; [exact Hwf|]. intros c (Hu0 & _ & Hiff & _). simpl.
  unfold cell_draws. destruct (palette_draw c) as [i|]; simpl; [lia|].
  exfalso. pose proof (proj1 Hiff eq_refl) as Hlt.
  apply (Qlt_irrefl (first_draw c)).
  eapply Qlt_le_trans; [exact Hlt|]. eapply Qle_trans; [exact Hratio|exact Hu0].
Qed.

End GridRuns.

Lemma coarse_grid_rows_mirrored_witness :
  exists grid r',
    coarse_grid horizontal_config (7, 48, 66) [(7, 48, 66); (231, 111, 81)] (lcg_rng 42)
      = Ok (grid, r') /\
    length grid = 4%nat /\ grid !! 0%nat = grid !! 3%nat /\ grid !! 1%nat = grid !! 2%nat.
Proof.
  destruct (coarse_grid_rows_mirrored horizontal_config (7, 48, 66)
              [(7, 48, 66); (231, 111, 81)] (lcg_rng 42)
              ltac:(discriminate) ltac:(simpl; tauto))
    as (grid & r' & Hgrid & Hlen & Hsym).
  change (Z.to_nat (grid_cells horizontal_config)) with 4%nat in Hlen.
  exists grid, r'. split; [exact Hgrid|]. split; [exact Hlen|].
  split.
  - rewrite (Hsym 0%nat) by lia. rewrite Hlen. reflexivity.
  - rewrite (Hsym 1%nat) by lia. rewrite Hlen. reflexivity.
Defined.

Lemma coarse_grid_rows_palindromes_witness :
  exists grid r',
    coarse_grid scenario_config (26, 28, 44) palette0 (lcg_rng 42) = Ok (grid, r') /\
    Forall (fun row => reverse row = row) grid.
Proof.
  apply (coarse_grid_rows_palindromes scenario_config (26, 28, 44) palette0 (lcg_rng 42)).
  - discriminate.
  - simpl. tauto.
Defined.

Lemma coarse_grid_palette_closed_witness :
  palette_index_ok no_background_config /\
  exists palette bg r1 grid r2,
    _choose_palette (palette_index no_background_config) (lcg_rng 5) = Ok (palette, r1) /\
    In palette PALETTES /\
    _determine_background palette = Ok bg /\ In bg palette /\
    coarse_grid no_background_config bg palette r1 = Ok (grid, r2) /\
    Forall (Forall (fun c => In c palette)) grid.
Proof.
  split; [exact I|].
  apply (coarse_grid_palette_closed no_background_config (lcg_rng 5)). exact I.
Defined.

Lemma coarse_grid_call_count_witness :
  exists grid r',
    coarse_grid scenario_config (26, 28, 44) palette0 (lcg_rng 42) = Ok (grid, r') /\
    (128 <= length (rng_log r') <= 256)%nat.
Proof.
  destruct (coarse_grid_call_count scenario_config (26, 28, 44) palette0 (lcg_rng 42)
              ltac:(discriminate)) as (grid & r' & Hgrid & Hcount).
  exists grid, r'. split; [exact Hgrid|]. exact Hcount.
Defined.

Lemma no_background_two_draws_witness :
  (background_ratio no_background_config <= 0)%Q /\
  exists grid r',
    coarse_grid no_background_config (26, 28, 44) palette0 (lcg_rng 42) = Ok (grid, r') /\
    length (rng_log r') = 18%nat.
Proof.
  split; [discriminate|].
  apply (no_background_two_draws no_background_config (26, 28, 44) palette0 (lcg_rng 42)).
  - discriminate.
  - discriminate.
Defined.

(** ** The written file, read back *)

Section ReadBack.
Context {ZL : Zlib}.

Lemma read_chunk_frame (tag data rest : bytes) :
  length tag = 4%nat -> Z.of_nat (length data) < 2 ^ 32 ->
  read_chunk ((be32 (Z.of_nat (length data)) ++ tag ++ data
               ++ be32 (crc32 (tag ++ data))) ++ rest)
    = Some (tag, data, rest).
Proof.
  intros Htag Hlen.
  set (L := be32 (Z.of_nat (length data))). set (C := be32 (crc32 (tag ++ data))).
  assert (length L = 4%nat) as HL by reflexivity.
  assert (length C = 4%nat) as HC by reflexivity.
  set (s := (L ++ tag ++ data ++ C) ++ rest).
  assert (take 4 s = L) as H1.
  { unfold s. rewrite <- !app_assoc. apply take_app_length'. exact HL. }
  assert (drop 4 s = tag ++ data ++ C ++ rest) as H2.
  { unfold s. rewrite <- !app_assoc. apply drop_app_length'. exact HL. }
  assert (drop 8 s = data ++ C ++ rest) as H3.
  { change 8%nat with (4 + 4)%nat. rewrite <- drop_drop, H2.
    apply drop_app_length'. lia. }
  assert (drop (8 + length data) s = C ++ rest) as H4.
  { rewrite <- drop_drop, H3. apply drop_app_length'. reflexivity. }
  assert (drop (12 + length data) s = rest) as H5.
  { replace (12 + length data)%nat with ((8 + length data) + 4)%nat by lia.
    rewrite <- drop_drop, H4. apply drop_app_length'. exact HC. }
  assert (length s = (12 + length data + length rest)%nat) as Hs.
  { unfold s. rewrite !length_app, HL, HC, Htag. lia. }
  assert (unpack_be L = Z.of_nat (length data)) as HLv
    by (apply unpack_be32; lia).
  assert (unpack_be C = crc32 (tag ++ data)) as HCv
    by (apply unpack_be32, crc32_range).
  unfold read_chunk. cbv zeta. fold s. rewrite H1, HLv, Nat2Z.id.
  rewrite H2, H3, H4, H5.
  rewrite (take_app_length' tag) by lia.
  rewrite (take_app_length' data) by reflexivity.
  rewrite (take_app_length' C) by reflexivity.
  rewrite HCv, Z.eqb_refl, bool_decide_eq_true_2 by lia. reflexivity.
Qed.

(** X13: when the header fields fit 32 bits and the compressed stream is
    shorter than 2^32 bytes, [_write_png] returns normally and replaces
    whatever the file held by the signature followed by exactly three
    chunks whose checksums verify: [IHDR] with the 13 header bytes, [IDAT]
    with the compressed filtered rows, and an empty [IEND]. *)
Theorem write_png_three_chunks (width height : Z) (rows : list bytes)
    (existing : option bytes) :
  0 <= width < 2 ^ 32 -> 0 <= height < 2 ^ 32 ->
  Z.of_nat (length (compress (filtered rows))) < 2 ^ 32 ->
  exists body,
    _write_png width height rows existing = (Ok tt, Some (png_signature ++ body)) /\
    read_chunks 3 body =
      Some ([(IHDR, be32 width ++ be32 height ++ [8; 2; 0; 0; 0]);
             (IDAT, compress (filtered rows));
             (IEND, [])], []).
Proof.
  intros Hw Hh Hfit.
  destruct (write_png_spec width height rows existing Hw Hh)
    as (c1 & st & rest & Hwrite & Hc1 & Hrest).
  destruct (Hrest Hfit) as (c2 & c3 & -> & -> & Hc2 & Hc3).
  set (ihdr := be32 width ++ be32 height ++ [8; 2; 0; 0; 0]) in *.
  set (idat := compress (filtered rows)) in *.
  assert (Z.of_nat (length ihdr) < 2 ^ 32) as Hihdr by (simpl; lia).
  assert (Z.of_nat (length (@nil Z)) < 2 ^ 32) as Hnil by (simpl; lia).
  pose proof (png_chunk_in_range IHDR ihdr Hihdr) as E1.
  pose proof (png_chunk_in_range IDAT idat Hfit) as E2.
  pose proof (png_chunk_in_range IEND [] Hnil) as E3.
  assert (c1 = be32 (Z.of_nat (length ihdr)) ++ IHDR ++ ihdr
               ++ be32 (crc32 (IHDR ++ ihdr))) as -> by congruence.
  assert (c2 = be32 (Z.of_nat (length idat)) ++ IDAT ++ idat
               ++ be32 (crc32 (IDAT ++ idat))) as -> by congruence.
  assert (c3 = be32 (Z.of_nat (length (@nil Z))) ++ IEND ++ []
               ++ be32 (crc32 (IEND ++ []))) as -> by congruence.
  eexists. split; [exact Hwrite|].
  cbn [read_chunks].
  rewrite (read_chunk_frame IHDR ihdr _ eq_refl Hihdr).
  rewrite (read_chunk_frame IDAT idat _ eq_refl Hfit).
  rewrite <- (app_nil_r (be32 _ ++ IEND ++ [] ++ be32 _)).
  rewrite (read_chunk_frame IEND [] [] eq_refl Hnil).
  reflexivity.
Qed.

Lemma write_png_refused (width height : Z) (rows : list bytes)
    (existing : option bytes) :
  width < 0 \/ 2 ^ 32 <= width \/ height < 0 \/ 2 ^ 32 <= height ->
  _write_png width height rows existing = (Raise StructError, existing).
Proof.
  intros Hbad. unfold _write_png, pack_IIBBBBB.
  destruct (Z.lt_ge_cases width 0) as [?|Hw0];
    [rewrite (pack_u32_be_out_of_range width) by lia; reflexivity|].
  destruct (Z.lt_ge_cases width (2 ^ 32)) as [Hw1|?];
    [|rewrite (pack_u32_be_out_of_range width) by lia; reflexivity].
  rewrite (pack_u32_be_in_range width) by lia.
  rewrite (pack_u32_be_out_of_range height) by lia. reflexivity.
Qed.

(** X14: a width or height that is negative or does not fit 32 bits makes
    [_write_png] raise [struct.error] before the file is opened: what the
    file held is still there. *)
Theorem write_png_refuses_before_open (width height : Z) (rows : list bytes)
    (existing : option bytes) :
  width < 0 \/ 2 ^ 32 <= width \/ height < 0 \/ 2 ^ 32 <= height ->
  _write_png width height rows existing = (Raise StructError, existing).
Proof. apply write_png_refused. Qed.

End ReadBack.

Lemma write_png_three_chunks_witness :
  0 <= 1 < 2 ^ 32 /\
  Z.of_nat (length (compress (filtered [[255; 0; 0]]))) < 2 ^ 32 /\
  exists body,
    _write_png 1 1 [[255; 0; 0]] (Some [9; 9]) = (Ok tt, Some (png_signature ++ body)) /\
    read_chunks 3 body =
      Some ([(IHDR, be32 1 ++ be32 1 ++ [8; 2; 0; 0; 0]);
             (IDAT, compress (filtered [[255; 0; 0]]));
             (IEND, [])], []).
Proof.
  split; [lia|]. split; [simpl; lia|].
  apply (write_png_three_chunks 1 1 [[255; 0; 0]] (Some [9; 9])); simpl; lia.
Defined.

Lemma write_png_refuses_before_open_witness :
  (-1 < 0 \/ 2 ^ 32 <= -1 \/ 1 < 0 \/ 2 ^ 32 <= 1) /\
  _write_png (-1) 1 [[255; 0; 0]] (Some [9; 9]) = (Raise StructError, Some [9; 9]).
Proof.
  split; [left; lia|].
  apply (write_png_refuses_before_open (-1) 1 [[255; 0; 0]] (Some [9; 9])). left. lia.
Defined.

(** ** Whole runs *)

Section WholeRuns.
Context {RS : RandomSource} {ZL : Zlib}.


(** X16: an explicit palette index of 5 or more, or below -5, ends the run
    with [ValueError] before anything is written, whatever the rest of the
    configuration and the seed. *)
Theorem generate_refuses_palette_index (entropy : rng_state)
    (existing : option bytes) (cfg : PixelArtConfig) (seed : option Z) (i : Z) :
  palette_index cfg = Some i -> i < -5 \/ 5 <= i ->
  generate_pixel_art entropy existing (Some cfg) seed = (Raise ValueError, existing).
Proof.
  intros Hidx Hbad. unfold generate_pixel_art, render, mbind, gen_bind. simpl.
  rewrite Hidx, choose_palette_out_of_range by exact Hbad. reflexivity.
Qed.

(** X17: [__post_init__] does not look at the sign of [size]; for an
    accepted configuration whose [size] is negative (and above -2^63, so
    that the cell size is a valid repetition count) the grid is built, no
    pixel is produced, and packing the header raises [struct.error] before
    the file is opened. *)
Theorem generate_refuses_size (entropy : rng_state) (existing : option bytes)
    (cfg : PixelArtConfig) (seed : option Z) :
  __post_init__ cfg = Ok tt -> palette_index_ok cfg ->
  - 2 ^ 63 < size cfg < 0 ->
  generate_pixel_art entropy existing (Some cfg) seed = (Raise StructError, existing).
Proof.
  intros Hvalid Hidx Hneg.
  destruct (render_spec cfg (Random_init entropy seed) Hvalid Hidx ltac:(lia))
    as (palette & bg & r1 & grid & r2 & _ & _ & _ & _ & _ & Hrender).
  unfold generate_pixel_art. simpl. rewrite Hrender.
  apply write_png_refused. lia.
Qed.

(** X18: [__post_init__] does not look at the sign of [grid_cells] either;
    for an accepted configuration with negative [grid_cells] both loops
    over [range(grid_cells)] are empty, so no pixel row is produced, and
    the file gets a header that declares [size] by [size] pixels in front
    of an empty pixel stream. *)
Theorem negative_grid_cells_empty_image (entropy : rng_state)
    (existing : option bytes) (cfg : PixelArtConfig) (seed : option Z) :
  __post_init__ cfg = Ok tt -> palette_index_ok cfg ->
  grid_cells cfg < 0 -> 0 <= size cfg < 2 ^ 32 ->
  exists r' st c1 rest,
    render cfg (Random_init entropy seed) = Ok ([], r') /\
    generate_pixel_art entropy existing (Some cfg) seed =
      (st, Some (png_signature ++ c1 ++ rest)) /\
    _png_chunk IHDR (be32 (size cfg) ++ be32 (size cfg) ++ [8; 2; 0; 0; 0]) = Ok c1 /\
    (Z.of_nat (length (compress [])) < 2 ^ 32 ->
     exists c2 c3,
       st = Ok tt /\ rest = c2 ++ c3 /\
       _png_chunk IDAT (compress []) = Ok c2 /\ _png_chunk IEND [] = Ok c3).
Proof.
  intros Hvalid Hidx Hneg Hsize.
  destruct (idat_roundtrip entropy existing cfg seed Hvalid Hidx Hsize)
    as (grid & r' & _ & _ & _ & Hrender & Hlen & _).
  cbv zeta in Hrender.
  assert (grid = []) as ->.
  { apply length_zero_iff_nil. rewrite Hlen. unfold range_len. lia. }
  destruct (generate_spec entropy existing cfg seed Hvalid Hidx Hsize)
    as (rows & r2 & c1 & st & rest & Hrender' & Hgen & Hc1 & Hrest).
  rewrite Hrender in Hrender'. injection Hrender' as <- <-.
  exists r', st, c1, rest. split; [exact Hrender|]. split; [exact Hgen|].
  split; [exact Hc1|exact Hrest].
Qed.

(** X19: [main] builds its configuration with [size=128]; a non-zero
    [--grid-cells] that does not divide 128 ends it with [ValueError]
    before the output file is touched. *)
Theorem main_refuses_grid_cells (entropy : rng_state) (existing : option bytes)
    (args : Cli.Namespace) :
  Cli.grid_cells args <> 0 -> 128 mod Cli.grid_cells args <> 0 ->
  Cli.main entropy existing args = (Raise ValueError, existing).
Proof.
  intros Hnz Hmod. unfold Cli.main, make_config.
  rewrite post_init_rejects; [reflexivity|exact Hnz|left; exact Hmod].
Qed.

(** X20: whenever the arguments make an accepted configuration with an
    accepted palette index, [main] leaves a file that starts with the
    signature and a header chunk declaring 128 by 128 pixels, bit depth 8,
    colour type 2; when it returns normally it returns the output path. *)
Theorem main_writes_128 (entropy : rng_state) (existing : option bytes)
    (args : Cli.Namespace) (cfg : PixelArtConfig) :
  make_config 128 (Cli.grid_cells args) (Cli.symmetry args) (Cli.palette args)
              (Cli.background_ratio args) = Ok cfg ->
  palette_index_ok cfg ->
  exists st c1 rest,
    Cli.main entropy existing args = (st, Some (png_signature ++ c1 ++ rest)) /\
    _png_chunk IHDR [0; 0; 0; 128; 0; 0; 0; 128; 8; 2; 0; 0; 0] = Ok c1 /\
    (forall p, st = Ok p -> p = Cli.output args).
Proof.
  intros Hcfg Hidx. unfold Cli.main. rewrite Hcfg.
  unfold make_config in Hcfg. apply result_bind_Ok in Hcfg as ([] & Hvalid & [= <-]).
  destruct (generate_spec entropy existing _ (Cli.seed args) Hvalid Hidx
              ltac:(simpl; lia))
    as (rows & r' & c1 & st & rest & _ & Hgen & Hc1 & _).
  rewrite Hgen. exists (match st with Ok _ => Ok (Cli.output args) | Raise e => Raise e end),
                       c1, rest.
  split; [destruct st as [[]|e]; reflexivity|]. split; [exact Hc1|].
  intros p Hp. destruct st as [[]|e]; [injection Hp as <-; reflexivity|discriminate].
Qed.

End WholeRuns.


Lemma generate_refuses_palette_index_witness :
  generate_pixel_art (RS := lcg_source) 0 (Some [1; 2; 3])
    (Some {| size := 128; grid_cells := 16; symmetry := "vertical";
             palette_index := Some 5; background_ratio := 45 # 100 |}) (Some 42)
    = (Raise ValueError, Some [1; 2; 3]).
Proof.
  apply (generate_refuses_palette_index (RS := lcg_source) 0 (Some [1; 2; 3]) _
           (Some 42) 5); [reflexivity|right; lia].
Defined.

Lemma generate_refuses_size_witness :
  __post_init__ negative_size_config = Ok tt /\
  generate_pixel_art (RS := lcg_source) 0 (Some [1; 2; 3])
    (Some negative_size_config) (Some 42) = (Raise StructError, Some [1; 2; 3]).
Proof.
  split; [reflexivity|].
  apply (generate_refuses_size (RS := lcg_source) 0 (Some [1; 2; 3])
           negative_size_config (Some 42)).
  - reflexivity.
  - unfold palette_index_ok. simpl. lia.
  - simpl. lia.
Defined.

Lemma negative_grid_cells_empty_image_witness :
  __post_init__ negative_cells_config = Ok tt /\
  exists r' st c1 rest,
    render negative_cells_config (lcg_rng 42) = Ok ([], r') /\
    generate_pixel_art (RS := lcg_source) 0 None (Some negative_cells_config) (Some 42) =
      (st, Some (png_signature ++ c1 ++ rest)) /\
    _png_chunk IHDR (be32 128 ++ be32 128 ++ [8; 2; 0; 0; 0]) = Ok c1.
Proof.
  split; [reflexivity|].
  destruct (negative_grid_cells_empty_image (RS := lcg_source) 0 None
              negative_cells_config (Some 42) ltac:(reflexivity)
              ltac:(unfold palette_index_ok; simpl; lia) ltac:(reflexivity)
              ltac:(simpl; lia))
    as (r' & st & c1 & rest & Hr & Hg & Hc1 & _).
  exists r', st, c1, rest. repeat split; assumption.
Defined.

Lemma main_refuses_grid_cells_witness :
  Cli.main (RS := lcg_source) 0 (Some [1; 2; 3])
    {| Cli.output := "art.png"; Cli.seed := None; Cli.palette := None;
       Cli.symmetry := "vertical"; Cli.grid_cells := 6;
       Cli.background_ratio := 45 # 100 |}
    = (Raise ValueError, Some [1; 2; 3]).
Proof.
  apply (main_refuses_grid_cells (RS := lcg_source)); simpl; discriminate.
Defined.

Lemma main_writes_128_witness :
  exists st c1 rest,
    Cli.main (RS := lcg_source) 0 None default_args
      = (st, Some (png_signature ++ c1 ++ rest)) /\
    _png_chunk IHDR [0; 0; 0; 128; 0; 0; 0; 128; 8; 2; 0; 0; 0] = Ok c1 /\
    (forall p, st = Ok p -> p = "art.png"%string).
Proof.
  apply (main_writes_128 (RS := lcg_source) 0 None default_args default_config).
  - reflexivity.
  - exact I.
Defined.

(** ** A run with [background_ratio = 1] *)

Lemma Forall_eq_replicate {A} (x : A) (l : list A) :
  Forall (eq x) l -> l = replicate (length l) x.
Proof.
  induction 1 as [|y l <- _ IH]; simpl; [reflexivity|]. rewrite <- IH. reflexivity.
Qed.

Lemma concat_replicate_replicate {A} (n k : nat) (x : A) :
  concat (replicate n (replicate k x)) = replicate (n * k) x.
Proof.
  induction n as [|n IH]; simpl; [reflexivity|].
  rewrite IH, replicate_add. reflexivity.
Qed.

Lemma pixel_matrix_replicate (cell_size : Z) (n : nat) (row : list colour) :
  pixel_matrix cell_size (replicate n row) =
    replicate (n * range_len cell_size) (row_pixels cell_size row).
Proof.
  unfold pixel_matrix. rewrite map_replicate. apply concat_replicate_replicate.
Qed.


Lemma pixels_length (k : nat) (c : colour) :
  length (concat (replicate k (colour_items c))) = (3 * k)%nat.
Proof.
  destruct c as [[r g] b]. induction k as [|k IH]; [reflexivity|].
  cbn [replicate concat]. rewrite length_app, IH. simpl. lia.
Qed.


(** A repetition count that does not fit an index makes the expansion of a
    non-empty row raise. *)
Lemma pixel_row_body_overflow (cell_size : Z) (pixel_rows : list bytes)
    (c : colour) (row : list colour) :
  cell_size < - 2 ^ 63 \/ 2 ^ 63 <= cell_size ->
  pixel_row_body cell_size pixel_rows (c :: row) = Raise OverflowError.
Proof.
  intros Hbad. unfold pixel_row_body, list_repeat. simpl.
  destruct (Z.leb_spec (- 2 ^ 63) cell_size); [|reflexivity].
  destruct (Z.ltb_spec cell_size (2 ^ 63)); [lia|reflexivity].
Qed.

Section FullBackground.
Context {RS : RandomSource} {ZL : Zlib}.

(** With [background_ratio = 1] the run is known exactly: the coarse grid is
    [grid_cells] rows of as many background cells as the code puts in a
    row, every pixel row is that many cells times [cell_size] background
    pixels, and these rows are what the pixel-data chunk carries. *)
Lemma full_background_run (entropy : rng_state) (existing : option bytes)
    (cfg : PixelArtConfig) (seed : option Z) :
  __post_init__ cfg = Ok tt -> palette_index_ok cfg ->
  (background_ratio cfg == 1)%Q -> 0 <= size cfg < 2 ^ 32 ->
  exists palette bg r1 r' st c1 rest,
    let cell_size := size cfg / grid_cells cfg in
    let rows :=
      replicate (range_len (grid_cells cfg) * range_len cell_size)
        (concat (replicate (row_width cfg * range_len cell_size) (colour_items bg))) in
    let payload := compress (filtered rows) in
    _choose_palette (palette_index cfg) (Random_init entropy seed) = Ok (palette, r1) /\
    _determine_background palette = Ok bg /\
    coarse_grid cfg bg palette r1 =
      Ok (replicate (range_len (grid_cells cfg)) (replicate (row_width cfg) bg), r') /\
    render cfg (Random_init entropy seed) = Ok (rows, r') /\
    generate_pixel_art entropy existing (Some cfg) seed =
      (st, Some (png_signature ++ c1 ++ rest)) /\
    (Z.of_nat (length payload) < 2 ^ 32 ->
     exists c3,
       st = Ok tt /\
       rest = (be32 (Z.of_nat (length payload)) ++ IDAT ++ payload
               ++ be32 (crc32 (IDAT ++ payload))) ++ c3) /\
    decompress payload = Some (filtered rows).
Proof.
  intros Hvalid Hidx Hratio Hsize.
  destruct (render_spec cfg (Random_init entropy seed) Hvalid Hidx ltac:(lia))
    as (palette & bg & r1 & grid & r2 & Hch & Hmem & Hbg & Hbgmem & Hgrid & Hrender).
  pose proof (proj1 (Forall_forall _ _) palettes_wellformed palette Hmem) as [Hne Hcol].
  destruct (coarse_grid_dimensions cfg bg palette r1 r2 grid Hne Hgrid) as [Hlen Hw].
  assert (Forall (Forall (eq bg)) grid) as Hall.
  { destruct (coarse_grid_spec cfg bg palette r1 Hne)
      as (cells & r3 & Hspec & _ & Hcells & _).
    cbv zeta in Hspec. rewrite Hspec in Hgrid. injection Hgrid as <- _.
    assert (Forall (Forall (eq bg))
              (map (fun cs => completed_row cfg (map (cell_colour bg palette) cs)) cells))
      as H0.
    { apply Forall_map. eapply Forall_impl; [exact Hcells|]. intros cs [_ Hcs]. simpl.
      apply completed_row_Forall. exact (full_ratio_cells _ bg palette cs Hratio Hcs). }
    destruct (str_in (symmetry cfg) ["horizontal"; "quadrant"]%string);
      [apply mirror_rows_Forall|]; exact H0. }
  assert (grid = replicate (range_len (grid_cells cfg)) (replicate (row_width cfg) bg))
    as Hshape.
  { rewrite <- Hlen. apply Forall_eq_replicate.
    apply Forall_forall. intros row Hrow.
    pose proof (proj1 (Forall_forall _ _) Hw row Hrow) as Hrw. cbv beta in Hrw.
    rewrite <- Hrw. symmetry. apply Forall_eq_replicate.
    exact (proj1 (Forall_forall _ _) Hall row Hrow). }
  assert (pixel_matrix (size cfg / grid_cells cfg) grid =
          replicate (range_len (grid_cells cfg) * range_len (size cfg / grid_cells cfg))
            (concat (replicate (row_width cfg * range_len (size cfg / grid_cells cfg))
                               (colour_items bg)))) as Hrows.
  { rewrite Hshape, pixel_matrix_replicate.
    rewrite (row_pixels_constant _ bg) by apply Forall_replicate, eq_refl.
    rewrite length_replicate. reflexivity. }
  assert (Forall (Forall is_colour) grid) as Hbytes.
  { apply (coarse_grid_Forall cfg bg palette is_colour r1 r2); try assumption.
    exact (proj1 (Forall_forall _ _) Hcol bg Hbgmem). }
  destruct (generate_spec entropy existing cfg seed Hvalid Hidx Hsize)
    as (rows & r' & c1 & st & rest & Hrender' & Hgen & _ & Hrest).
  rewrite Hrender in Hrender'. injection Hrender' as <- <-.
  exists palette, bg, r1, r2, st, c1, rest. cbv zeta. rewrite <- Hrows.
  split; [exact Hch|]. split; [exact Hbg|].
  split; [rewrite <- Hshape; exact Hgrid|]. split; [exact Hrender|].
  split; [exact Hgen|]. split.
  - intros Hlt. destruct (Hrest Hlt) as (c2 & c3 & Hst & -> & Hc2 & _).
    rewrite png_chunk_in_range in Hc2 by exact Hlt.
    exists c3. split; [exact Hst|]. congruence.
  - apply decompress_compress, filtered_bytes, Hbytes.
Qed.


(** In the modes none and horizontal the same run does give the image of
    the claim: [size] rows of [size] background pixels, which the pixel
    data splits into. *)
Lemma full_background_unmirrored (entropy : rng_state) (existing : option bytes)
    (cfg : PixelArtConfig) (seed : option Z) :
  __post_init__ cfg = Ok tt -> palette_index_ok cfg ->
  (background_ratio cfg == 1)%Q ->
  ~ In (symmetry cfg) ["vertical"; "quadrant"]%string ->
  0 < grid_cells cfg -> 0 < size cfg < 2 ^ 32 ->
  exists palette bg r1 r' st c1 rest,
    let rows :=
      replicate (Z.to_nat (size cfg))
        (concat (replicate (Z.to_nat (size cfg)) (colour_items bg))) in
    let payload := compress (filtered rows) in
    _choose_palette (palette_index cfg) (Random_init entropy seed) = Ok (palette, r1) /\
    _determine_background palette = Ok bg /\
    coarse_grid cfg bg palette r1 =
      Ok (replicate (Z.to_nat (grid_cells cfg))
            (replicate (Z.to_nat (grid_cells cfg)) bg), r') /\
    render cfg (Random_init entropy seed) = Ok (rows, r') /\
    generate_pixel_art entropy existing (Some cfg) seed =
      (st, Some (png_signature ++ c1 ++ rest)) /\
    (Z.of_nat (length payload) < 2 ^ 32 ->
     exists c3,
       st = Ok tt /\
       rest = (be32 (Z.of_nat (length payload)) ++ IDAT ++ payload
               ++ be32 (crc32 (IDAT ++ payload))) ++ c3) /\
    decompress payload = Some (filtered rows) /\
    unfilter (Z.to_nat (size cfg)) (Z.to_nat (3 * size cfg)) (filtered rows) = Some rows.
Proof.
  intros Hvalid Hidx Hratio Hvq Hgc Hsize.
  assert (str_in (symmetry cfg) ["vertical"; "quadrant"]%string = false) as Hvq'.
  { destruct (str_in (symmetry cfg) ["vertical"; "quadrant"]%string) eqn:E;
      [|reflexivity]. apply str_in_In in E. contradiction. }
  destruct (full_background_run entropy existing cfg seed Hvalid Hidx Hratio ltac:(lia))
    as (palette & bg & r1 & r' & st & c1 & rest & Hch & Hbg & Hgrid & Hrender & Hgen
        & Hrest & Hdec).
  cbv zeta in *.
  destruct (exact_cells cfg Hvalid Hgc ltac:(lia)) as [Hcs Hexact].
  set (cs := size cfg / grid_cells cfg) in *.
  assert (row_width cfg = Z.to_nat (grid_cells cfg)) as Hrw.
  { unfold row_width, generated_columns, range_len. rewrite Hvq', Z.div_1_r.
    reflexivity. }
  assert (range_len (grid_cells cfg) * range_len cs = Z.to_nat (size cfg))%nat as Hn.
  { unfold range_len. rewrite <- Z2Nat.inj_mul, Hexact by lia. reflexivity. }
  rewrite Hrw in *. unfold range_len in Hn. unfold range_len in *. rewrite Hn in *.
  exists palette, bg, r1, r', st, c1, rest. cbv zeta.
  split; [exact Hch|]. split; [exact Hbg|]. split; [exact Hgrid|].
  split; [exact Hrender|]. split; [exact Hgen|]. split; [exact Hrest|].
  split; [exact Hdec|].
  set (row := concat (replicate (Z.to_nat (size cfg)) (colour_items bg))).
  assert (length row = Z.to_nat (3 * size cfg)) as Hlen.
  { unfold row. rewrite pixels_length. lia. }
  rewrite <- Hlen.
  rewrite <- (length_replicate (Z.to_nat (size cfg)) row) at 1.
  apply unfilter_filtered. apply Forall_replicate. reflexivity.
Qed.

End FullBackground.

